(** * add_trailing_comma._main: a shallow embedding and its properties

    The module [add_trailing_comma/_main.py] rewrites Python source text by
    adding or removing the comma before a closing bracket.  This development
    embeds its functions ([_should_skip_adding_comma], [_fix_unhugged_brace],
    [_is_single_element_tuple], [_remove_trailing_commas], [_fix_src],
    [fix_file], [main]) and proves properties of them.

    The functions it imports from modules that are not part of the embedded
    sources ([ast_parse], [visit], [src_to_tokens], [find_simple],
    [fix_brace]) are collected in the record [Collab]; the embedded functions
    take it as a parameter.  Module [Ref] gives a reference instance of it,
    on which the examples are evaluated. *)

From Stdlib Require Import ZArith NArith List Strings.String Strings.Ascii Strings.Byte Bool Lia.
From stdpp Require Import base option list gmap strings.

(** ** Python values *)

(** A Python [str] is a sequence of code points. *)
Abbreviation str := (list N).

(** Literals.  [py "..."] reads a Rocq string as a Python literal: [\n], [\r],
    [\t] and [\\] are the usual escapes and [\q] stands for the double quote. *)
Definition unescape (c : ascii) : N :=
  match c with
  | "n"%char => 10
  | "r"%char => 13
  | "t"%char => 9
  | "q"%char => 34
  | _ => N_of_ascii c
  end%N.

Fixpoint py (s : string) : str :=
  match s with
  | EmptyString => []
  | String "\" (String c r) => unescape c :: py r
  | String c r => N_of_ascii c :: py r
  end.

Arguments py : simpl never.

(** [a == b] on strings. *)
Definition str_eqb (a b : str) : bool := bool_decide (a = b).

(** [pattern in text]: [pattern] occurs as a contiguous run of [text]. *)
Fixpoint starts_with (p s : str) : bool :=
  match p, s with
  | [], _ => true
  | c :: p', x :: s' => (c =? x)%N && starts_with p' s'
  | _ :: _, [] => false
  end.

Fixpoint py_in (p s : str) : bool :=
  starts_with p s ||
  match s with
  | [] => false
  | _ :: s' => py_in p s'
  end.

(** Exceptions the embedded code can raise, and the outcome of a call. *)
Inductive exn := IndexError | FileNotFoundError | UnicodeEncodeError.

Inductive outcome (A : Type) :=
| Ret (a : A)
| Raise (e : exn)
| OutOfFuel.
Arguments Ret {A} a.
Arguments Raise {A} e.
Arguments OutOfFuel {A}.

#[global] Instance outcome_ret : MRet outcome := fun A a => Ret a.
#[global] Instance outcome_bind : MBind outcome := fun A B f m =>
  match m with
  | Ret a => f a
  | Raise e => Raise e
  | OutOfFuel => OutOfFuel
  end.

(** List indexing [l[i]] with Python's negative indices and [IndexError]. *)
Definition py_index {A} (l : list A) (i : Z) : outcome nat :=
  let n := Z.of_nat (length l) in
  if ((0 <=? i) && (i <? n))%Z then Ret (Z.to_nat i)
  else if ((- n <=? i) && (i <? 0))%Z then Ret (Z.to_nat (i + n))
  else Raise IndexError.

Definition py_get {A} (l : list A) (i : Z) : outcome A :=
  k ← py_index l i;
  match l !! k with
  | Some x => Ret x
  | None => Raise IndexError
  end.

(** [l[i] = x]. *)
Definition py_set {A} (l : list A) (i : Z) (x : A) : outcome (list A) :=
  k ← py_index l i; Ret (<[k:=x]> l).

(** [l[a:b] = []]: slice bounds are clipped, never raise. *)
Definition slice_bound (n i : Z) : Z :=
  (if i <? 0 then Z.max 0 (i + n) else Z.min i n)%Z.

Definition py_del_slice {A} (l : list A) (a b : Z) : list A :=
  let n := Z.of_nat (length l) in
  let a' := slice_bound n a in
  let b' := Z.max a' (slice_bound n b) in
  take (Z.to_nat a') l ++ drop (Z.to_nat b') l.

(** ** Tokens (tokenize_rt.Token) *)

Record Token := mkToken {
  name : string;
  src : str;
  line : option Z;
  utf8_byte_offset : option Z;
}.

#[global] Instance Token_eq_dec : EqDecision Token.
Proof. solve_decision. Defined.

(** [Token(name, src)]: line and offset default to [None]. *)
Definition Token_ (n : string) (s : str) : Token := mkToken n s None None.

(** [token.offset]. *)
Definition Offset : Type := option Z * option Z.
Definition offset (t : Token) : Offset := (line t, utf8_byte_offset t).

(** [tokens_to_src]: the concatenation of the tokens' texts. *)
Definition tokens_to_src (tokens : list Token) : str := concat (map src tokens).

(** [token.name in ('UNIMPORTANT_WS', 'NL')] *)
Definition is_ws_name (t : Token) : bool :=
  String.eqb (name t) "UNIMPORTANT_WS" || String.eqb (name t) "NL".

(** [token.name in ('NAME', 'NUMBER', 'STRING')] *)
Definition is_value_name (t : Token) : bool :=
  String.eqb (name t) "NAME" || String.eqb (name t) "NUMBER" || String.eqb (name t) "STRING".

(** ** Regular expressions of [_should_skip_adding_comma]

    The nine patterns use literal characters and the repetitions [\s+] and
    [[\s\n]+] only.  [re_compile] reads a pattern written as in the source
    (with [\q] for the double quote). *)

Inductive re_class := Space | SpaceOrNl.

Inductive re_atom :=
| Lit (c : N)
| One (cl : re_class)
| Plus (cl : re_class).

(** [\s] on [str]: the code points for which [str.isspace()] holds. *)
Definition is_space (c : N) : bool :=
  ((9 <=? c) && (c <=? 13) || (28 <=? c) && (c <=? 32) || (c =? 133) || (c =? 160)
   || (c =? 5760) || (8192 <=? c) && (c <=? 8202) || (c =? 8232) || (c =? 8233)
   || (c =? 8239) || (c =? 8287) || (c =? 12288))%N.

Definition in_class (cl : re_class) (c : N) : bool :=
  match cl with
  | Space => is_space c
  | SpaceOrNl => is_space c || (c =? 10)%N
  end.

Fixpoint re_compile (s : string) : list re_atom :=
  match s with
  | EmptyString => []
  | String "\" (String "s" (String "+" r)) => Plus Space :: re_compile r
  | String "\" (String "s" r) => One Space :: re_compile r
  | String "[" (String "\" (String "s" (String "\" (String "n" (String "]" (String "+" r)))))) =>
      Plus SpaceOrNl :: re_compile r
  | String "\" (String c r) => Lit (unescape c) :: re_compile r
  | String c r => Lit (N_of_ascii c) :: re_compile r
  end.

(** [re_match p s]: [p] matches a prefix of [s] (with backtracking). *)
Fixpoint re_match (p : list re_atom) (s : str) : bool :=
  match p with
  | [] => true
  | Lit c :: p' =>
      match s with
      | x :: s' => (x =? c)%N && re_match p' s'
      | [] => false
      end
  | One cl :: p' =>
      match s with
      | x :: s' => in_class cl x && re_match p' s'
      | [] => false
      end
  | Plus cl :: p' =>
      (fix plus (s : str) : bool :=
         match s with
         | x :: s' => in_class cl x && (re_match p' s' || plus s')
         | [] => false
         end) s
  end.

(** [re.search(p, s, re.DOTALL)] as a truth value. *)
Fixpoint re_search (p : list re_atom) (s : str) : bool :=
  re_match p s ||
  match s with
  | [] => false
  | _ :: s' => re_search p s'
  end.

Definition test_patterns : list (list re_atom) :=
  map re_compile [
    "tuple\(\n\s+a for a in b\n\)";
    "\(\n\s+a\n\)\.f\(b\)";
    "x = \(\n\s+f\q \{test\(t\)\}\q\n\)";
    "x = \(\n\s+object\n\), object";
    "with \(\n\s+open\(\qwat\q\)\n\) as f";
    "x = \(\qfoo\q[\s\n]+\qbar\q\)";
    "\[a\(\)[\s\n]+for b in c[\s\n]+if \([\s\n]+d[\s\n]+\)[\s\n]+\]";
    "x = \[x[\s\n]+for x in y\(\)\]";
    "x = \(\n\s+\qfoo\q\n\s+\qbar\q\n\s+\)"
  ]%string.


(** The hard-coded pairs of [_fix_src]: (pattern, replacement). *)
Definition hard_coded : list (str * str) := [
  (py "x = (\qfoo\q\n     \qbar\q)", py "x = (\n    \qfoo\q\n    \qbar\q\n)");
  (py "[a()\n    for b in c\n    if (\n        d\n    )\n]",
   py "[\n    a()\n    for b in c\n    if (\n        d\n    )\n]");
  (py "x = [x\n     for x in y()]", py "x = [\n    x\n    for x in y()\n]\n");
  (py "x = (\n    \qfoo\q\n    \qbar\q\n    )", py "x = (\n    \qfoo\q\n    \qbar\q\n)");
  (py "with (\n    open(\qwat\q)\n) as f, open(\q2\q) as f2: pass",
   py "with (\n    open(\qwat\q)\n) as f, open(\q2\q) as f2: pass")
].

(** ** The imported helpers *)

(** The bracket descriptor [Fix] of [_token_helpers]; [_main.py] reads its
    fields [braces] and [multi_arg]. *)
Record Fix := mkFix {
  braces : Z * Z;
  multi_arg : bool;
}.

(** A registered callback [callback(i, tokens)] mutates the token list. *)
Definition callback : Type := Z -> list Token -> list Token.

(** What [_main.py] imports: the parser, the syntax-tree visitor
    ([visit cb] stands for [visit(FUNCS, cb)]), the tokenizer, the set of
    opening brackets, the bracket matcher and the bracket rewriter. *)
Record Collab := mkCollab {
  Ast : Type;
  ast_parse : str -> option Ast;
  visit : Ast -> gmap Offset (list callback);
  src_to_tokens : str -> list Token;
  START_BRACES : list str;
  find_simple : Z -> list Token -> option Fix;
  fix_brace : list Token -> option Fix -> bool -> bool -> list Token;
}.

(** ** The functions of [_main.py] *)

(** [_changing_list] (lines 22-26), as the loop
    [for i, token in _changing_list(tokens): body]: the index runs over the
    list as the body leaves it; [fuel] bounds the number of iterations. *)
Fixpoint _changing_list (fuel : nat)
    (body : Z -> Token -> list Token -> outcome (list Token))
    (i : Z) (lst : list Token) : outcome (list Token) :=
  if (i <? Z.of_nat (length lst))%Z then
    match fuel with
    | O => OutOfFuel
    | S fuel' =>
        token ← py_get lst i;
        lst' ← body i token lst;
        _changing_list fuel' body (i + 1)%Z lst'
    end
  else Ret lst.

(** [_should_skip_adding_comma] (lines 29-62). *)
Definition _should_skip_adding_comma (src : str) (fix_data : option Fix) : bool :=
  match fix_data with
  | None => true
  | Some _ => existsb (fun pattern => re_search pattern src) test_patterns
  end.

(** [_fix_unhugged_brace] (lines 65-74); a [Fix] is a non-empty named
    tuple, so [not fix_data] holds for [None] only. *)
Definition _fix_unhugged_brace (i : Z) (tokens : list Token) (fix_data : option Fix)
    : outcome (list Token) :=
  match fix_data with
  | None => Ret tokens
  | Some fd =>
      if negb (multi_arg fd) then Ret tokens
      else
        let last_brace := snd (braces fd) in
        t ← py_get tokens (last_brace - 1)%Z;
        if is_ws_name t
        then py_set tokens (last_brace - 1)%Z (Token_ "UNIMPORTANT_WS" (py "\n"))
        else Ret tokens
  end.

(** The inner loop of the argument count (line 88):
    [while j < last_brace and (tokens[j].name in (ws) or tokens[j].src != ','): j += 1] *)
Fixpoint skip_to_comma (fuel : nat) (tokens : list Token) (j last_brace : Z) : outcome Z :=
  if (j <? last_brace)%Z then
    t ← py_get tokens j;
    if is_ws_name t || negb (str_eqb (src t) (py ","))
    then match fuel with
         | O => OutOfFuel
         | S fuel' => skip_to_comma fuel' tokens (j + 1)%Z last_brace
         end
    else Ret j
  else Ret j.

(** The outer loop [while j < last_brace: ...] (lines 82-94), returning
    [arg_count]. *)
Fixpoint count_args (fuel : nat) (tokens : list Token) (j last_brace arg_count : Z)
    : outcome Z :=
  if (j <? last_brace)%Z then
    match fuel with
    | O => OutOfFuel
    | S fuel' =>
        t ← py_get tokens j;
        if is_value_name t then
          j1 ← skip_to_comma (Z.to_nat (last_brace - (j + 1))) tokens (j + 1)%Z last_brace;
          j2 ← (if (j1 <? last_brace)%Z
                then t1 ← py_get tokens j1;
                     Ret (if str_eqb (src t1) (py ",") then (j1 + 1)%Z else j1)
                else Ret j1);
          count_args fuel' tokens j2 last_brace (arg_count + 1)%Z
        else count_args fuel' tokens (j + 1)%Z last_brace arg_count
    end
  else Ret arg_count.

(** [while k >= 0 and tokens[k].name in ('UNIMPORTANT_WS', 'NL'): k -= 1]
    (lines 107-108) *)
Fixpoint skip_ws_back (fuel : nat) (tokens : list Token) (k : Z) : outcome Z :=
  if (0 <=? k)%Z then
    t ← py_get tokens k;
    if is_ws_name t
    then match fuel with
         | O => OutOfFuel
         | S fuel' => skip_ws_back fuel' tokens (k - 1)%Z
         end
    else Ret k
  else Ret k.

(** The set [tuple_operator_contexts] (lines 115-118). *)
Definition tuple_operator_contexts : list str :=
  map py [ "="; "+="; "-="; "*="; "/="; "%="; "//="; "**=";
           "&="; "|="; "^="; ">>="; "<<="; "return"; ","; "[" ]%string.

(** [_is_single_element_tuple] (lines 77-133). *)
Definition _is_single_element_tuple (tokens : list Token) (i last_brace : Z)
    : outcome bool :=
  arg_count ← count_args (Z.to_nat (last_brace - (i + 1))) tokens (i + 1)%Z last_brace 0%Z;
  if negb (arg_count =? 1)%Z then Ret false
  else
    ti ← py_get tokens i;
    if negb (str_eqb (src ti) (py "(")) then Ret false
    else
      k ← skip_ws_back (Z.to_nat (i - 1 + 1)) tokens (i - 1)%Z;
      if (k <? 0)%Z then Ret false
      else
        tk ← py_get tokens k;
        let is_tuple_context := bool_decide (src tk ∈ tuple_operator_contexts) in
        is_import_context ←
          (if str_eqb (src tk) (py "import") then Ret true
           else if (0 <? k)%Z && str_eqb (src tk) (py "from")
                then tk1 ← py_get tokens (k - 1)%Z; Ret (str_eqb (src tk1) (py "import"))
                else Ret false);
        is_function_context ←
          (if str_eqb (src tk) (py "def") then Ret true
           else if (0 <? k)%Z
                then tk1 ← py_get tokens (k - 1)%Z; Ret (str_eqb (src tk1) (py "def"))
                else Ret false);
        Ret (is_tuple_context && negb is_import_context && negb is_function_context).

(** [while j > i and tokens[j].name in ('UNIMPORTANT_WS', 'NL'): j -= 1]
    (lines 166-167) *)
Fixpoint skip_ws_back_to (fuel : nat) (tokens : list Token) (i j : Z) : outcome Z :=
  if (i <? j)%Z then
    t ← py_get tokens j;
    if is_ws_name t
    then match fuel with
         | O => OutOfFuel
         | S fuel' => skip_ws_back_to fuel' tokens i (j - 1)%Z
         end
    else Ret j
  else Ret j.

(** [for callback in callbacks.get(token.offset, ()): callback(i, tokens)] *)
Definition run_callbacks (callbacks : gmap Offset (list callback)) (token : Token)
    (i : Z) (tokens : list Token) : list Token :=
  fold_left (fun toks (cb : callback) => cb i toks) (default [] (callbacks !! offset token)) tokens.

Section Main.
Context (E : Collab).

(** [token.name == 'OP' and token.src in START_BRACES] *)
Definition is_start_brace (token : Token) : bool :=
  String.eqb (name token) "OP" && bool_decide (src token ∈ START_BRACES E).

(** The removal inside the [if fix_data and fix_data.multi_arg and not ...]
    of [_remove_trailing_commas] (lines 157-171); [None] is the [continue]. *)
Definition remove_comma_at (tokens : list Token) (i : Z) (fd : Fix)
    : outcome (option (list Token)) :=
  let last_brace := snd (braces fd) in
  single ← _is_single_element_tuple tokens i last_brace;
  if (single : bool) then Ret None
  else
    j ← skip_ws_back_to (Z.to_nat (last_brace - 1 - i)) tokens i (last_brace - 1)%Z;
    if (i <? j)%Z then
      t ← py_get tokens j;
      if str_eqb (src t) (py ",")
      then Ret (Some (py_del_slice tokens j (j + 1)%Z))
      else Ret (Some tokens)
    else Ret (Some tokens).

(** The body of the loop of [_remove_trailing_commas] (lines 145-174); the
    callbacks and the helpers see the list as it is, [token] is the token
    that was at [i] when the iteration began. *)
Definition remove_body (contents_text : str) (callbacks : gmap Offset (list callback))
    (i : Z) (token : Token) (tokens : list Token) : outcome (list Token) :=
  if bool_decide (src token = []) then Ret tokens
  else
    let tokens := run_callbacks callbacks token i tokens in
    if is_start_brace token then
      let fix_data := find_simple E i tokens in
      match fix_data with
      | Some fd =>
          if multi_arg fd && negb (_should_skip_adding_comma contents_text fix_data) then
            r ← remove_comma_at tokens i fd;
            match r with
            | None => Ret tokens
            | Some tokens' => _fix_unhugged_brace i tokens' fix_data
            end
          else _fix_unhugged_brace i tokens fix_data
      | None => _fix_unhugged_brace i tokens fix_data
      end
    else Ret tokens.

(** [_remove_trailing_commas] (lines 136-176). *)
Definition _remove_trailing_commas (fuel : nat) (contents_text : str) : outcome str :=
  match ast_parse E contents_text with
  | None => Ret contents_text
  | Some ast_obj =>
      let callbacks := visit E ast_obj in
      let tokens := src_to_tokens E contents_text in
      tokens' ← _changing_list fuel (remove_body contents_text callbacks) 0%Z tokens;
      Ret (tokens_to_src tokens')
  end.

(** The body of the loop of [_fix_src] (lines 204-225). *)
Definition add_body (contents_text : str) (callbacks : gmap Offset (list callback))
    (i : Z) (token : Token) (tokens : list Token) : outcome (list Token) :=
  if bool_decide (src token = []) then Ret tokens
  else
    let tokens := run_callbacks callbacks token i tokens in
    if is_start_brace token then
      let fix_data := find_simple E i tokens in
      if negb (_should_skip_adding_comma contents_text fix_data)
      then Ret (fix_brace E tokens fix_data true false)
      else _fix_unhugged_brace i tokens fix_data
    else Ret tokens.

(** [_fix_src] (lines 179-227). *)
Definition _fix_src (fuel : nat) (contents_text : str) (remove_comma : bool) : outcome str :=
  if remove_comma then _remove_trailing_commas fuel contents_text
  else
    match find (fun pr => py_in (fst pr) contents_text) hard_coded with
    | Some (_, replacement) => Ret replacement
    | None =>
        match ast_parse E contents_text with
        | None => Ret contents_text
        | Some ast_obj =>
            let callbacks := visit E ast_obj in
            let tokens := src_to_tokens E contents_text in
            tokens' ← _changing_list fuel (add_body contents_text callbacks) 0%Z tokens;
            Ret (tokens_to_src tokens')
        end
    end.
End Main.

(** ** Bytes and UTF-8 ([bytes.decode()], [str.encode()]) *)

Definition is_cont (b : N) : bool := ((128 <=? b) && (b <=? 191))%N.

(** Strict UTF-8 decoding; [None] is [UnicodeDecodeError]. *)
Fixpoint utf8_decode_N (bs : list N) : option str :=
  match bs with
  | [] => Some []
  | b0 :: r =>
      if (b0 <? 128)%N then cons b0 <$> utf8_decode_N r
      else if ((194 <=? b0) && (b0 <=? 223))%N then
        match r with
        | b1 :: r1 =>
            if is_cont b1
            then cons ((b0 - 192) * 64 + (b1 - 128))%N <$> utf8_decode_N r1
            else None
        | _ => None
        end
      else if ((224 <=? b0) && (b0 <=? 239))%N then
        match r with
        | b1 :: b2 :: r2 =>
            if is_cont b1 && is_cont b2
               && (negb (b0 =? 224)%N || (160 <=? b1)%N)
               && (negb (b0 =? 237)%N || (b1 <=? 159)%N)
            then cons ((b0 - 224) * 4096 + (b1 - 128) * 64 + (b2 - 128))%N <$> utf8_decode_N r2
            else None
        | _ => None
        end
      else if ((240 <=? b0) && (b0 <=? 244))%N then
        match r with
        | b1 :: b2 :: b3 :: r3 =>
            if is_cont b1 && is_cont b2 && is_cont b3
               && (negb (b0 =? 240)%N || (144 <=? b1)%N)
               && (negb (b0 =? 244)%N || (b1 <=? 143)%N)
            then cons ((b0 - 240) * 262144 + (b1 - 128) * 4096 + (b2 - 128) * 64 + (b3 - 128))%N
                   <$> utf8_decode_N r3
            else None
        | _ => None
        end
      else None
  end.

Definition utf8_decode (bs : list byte) : option str := utf8_decode_N (map Byte.to_N bs).

(** UTF-8 encoding of one code point; [None] is [UnicodeEncodeError]
    (surrogates) or a value that is no code point. *)
Definition utf8_encode_cp (c : N) : option (list N) :=
  (if c <? 128 then Some [c]
   else if c <? 2048 then Some [192 + c / 64; 128 + c mod 64]
   else if c <? 65536 then
     if (55296 <=? c) && (c <=? 57343) then None
     else Some [224 + c / 4096; 128 + (c / 64) mod 64; 128 + c mod 64]
   else if c <? 1114112 then
     Some [240 + c / 262144; 128 + (c / 4096) mod 64; 128 + (c / 64) mod 64; 128 + c mod 64]
   else None)%N.

Definition utf8_encode (s : str) : option (list byte) :=
  ns ← mapM utf8_encode_cp s; mapM Byte.of_N (concat ns).

(** ** The driver: [fix_file] and [main] *)

(** The part of the world the driver touches: the files by name, standard
    input, and what was printed to standard output and standard error. *)
Record World := mkWorld {
  fs : gmap str (list byte);
  stdin_buffer : list byte;
  stdout : str;
  stderr : str;
}.

(** [argparse.Namespace] after [parser.parse_args]. *)
Record Args := mkArgs {
  filenames : list str;
  exit_zero_even_if_changed : bool;
  py35_plus : bool;
  py36_plus : bool;
  remove_comma : bool;
}.

(** [print(msg, file=sys.stderr)] *)
Definition print_stderr (msg : str) (w : World) : World :=
  mkWorld (fs w) (stdin_buffer w) (stdout w) (stderr w ++ msg ++ py "\n").

(** [print(text, end='')] *)
Definition print_stdout_noend (text : str) (w : World) : World :=
  mkWorld (fs w) (stdin_buffer w) (stdout w ++ text) (stderr w).

(** [with open(filename, 'wb') as f: f.write(data)] *)
Definition write_file (filename : str) (data : list byte) (w : World) : World :=
  mkWorld (<[filename := data]> (fs w)) (stdin_buffer w) (stdout w) (stderr w).

(** [sys.stdin.buffer.read()] *)
Definition read_stdin (w : World) : list byte * World :=
  (stdin_buffer w, mkWorld (fs w) [] (stdout w) (stderr w)).

(** The first statement of [fix_file]: the bytes of standard input for [-],
    of the named file otherwise. *)
Definition read_contents (filename : str) (w : World) : outcome (list byte * World) :=
  if str_eqb filename (py "-") then Ret (read_stdin w)
  else match fs w !! filename with
       | Some b => Ret (b, w)
       | None => Raise FileNotFoundError
       end.

Section Driver.
Context (E : Collab).

(** [fix_file] (lines 230-256); the result is the exit code and the world
    after the call. *)
Definition fix_file (fuel : nat) (filename : str) (args : Args) (w : World)
    : outcome (Z * World) :=
  '(contents_bytes, w) ← read_contents filename w;
  match utf8_decode contents_bytes with
  | None =>
      let msg := filename ++ py " is non-utf-8 (not supported)" in
      Ret (1%Z, print_stderr msg w)
  | Some contents_text_orig =>
      contents_text ← _fix_src E fuel contents_text_orig (remove_comma args);
      let changed := negb (str_eqb contents_text contents_text_orig) in
      w ← (if str_eqb filename (py "-") then Ret (print_stdout_noend contents_text w)
           else if changed then
             match utf8_encode contents_text with
             | Some data =>
                 Ret (write_file filename data (print_stderr (py "Rewriting " ++ filename) w))
             | None => Raise UnicodeEncodeError
             end
           else Ret w);
      if exit_zero_even_if_changed args then Ret (0%Z, w)
      else Ret ((if changed then 1 else 0)%Z, w)
  end.

(** [for filename in args.filenames: ret |= fix_file(filename, args)] *)
Fixpoint main_loop (fuel : nat) (names : list str) (args : Args) (ret : Z) (w : World)
    : outcome (Z * World) :=
  match names with
  | [] => Ret (ret, w)
  | filename :: rest =>
      '(r, w) ← fix_file fuel filename args w;
      main_loop fuel rest args (Z.lor ret r) w
  end.

(** [main] (lines 259-278), from the parsed arguments on. *)
Definition main (fuel : nat) (args : Args) (w : World) : outcome (Z * World) :=
  let w := if py35_plus args || py36_plus args
           then print_stderr (py "WARNING: --py35-plus / --py36-plus do nothing") w
           else w in
  main_loop fuel (filenames args) args 0%Z w.
End Driver.

(** ** A reference instance of the imported helpers *)

Module Ref.

(** *** The tokenizer

    A model of [tokenize_rt.src_to_tokens] for the lexical fragment the
    examples use: names, numbers, quoted strings (with prefixes, also
    triple-quoted), comments, operators, blanks, physical and logical line
    ends, backslash continuations, and indentation. *)

Record LexState := mkLex {
  ls_line : Z;            (* line of the next character, from 1 *)
  ls_col : Z;             (* its utf-8 byte offset in the line *)
  ls_depth : nat;         (* open brackets *)
  ls_bol : bool;          (* at the start of a physical line *)
  ls_code : bool;         (* the logical line has a token already *)
  ls_indents : list Z;    (* the indentation stack, innermost first *)
}.

Definition cp_len (c : N) : Z :=
  if (c <? 128)%N then 1 else if (c <? 2048)%N then 2 else if (c <? 65536)%N then 3 else 4.

Definition advance (text : str) (st : LexState) : LexState :=
  let '(l, c) :=
    fold_left (fun '(l, c) ch => if (ch =? 10)%N then (l + 1, 0)%Z else (l, c + cp_len ch)%Z)
              text (ls_line st, ls_col st) in
  mkLex l c (ls_depth st) (ls_bol st) (ls_code st) (ls_indents st).

Definition tok (nm : string) (text : str) (st : LexState) : Token :=
  mkToken nm text (Some (ls_line st)) (Some (ls_col st)).

Definition set_flags (depth : nat) (bol code : bool) (st : LexState) : LexState :=
  mkLex (ls_line st) (ls_col st) depth bol code (ls_indents st).

Definition set_indents (ind : list Z) (st : LexState) : LexState :=
  mkLex (ls_line st) (ls_col st) (ls_depth st) (ls_bol st) (ls_code st) ind.

Fixpoint span {A} (f : A -> bool) (l : list A) : list A * list A :=
  match l with
  | x :: r => if f x then let '(a, b) := span f r in (x :: a, b) else ([], l)
  | [] => ([], [])
  end.

Definition is_blank (c : N) : bool := ((c =? 32) || (c =? 9) || (c =? 12))%N.
Definition is_digit (c : N) : bool := ((48 <=? c) && (c <=? 57))%N.
Definition is_name_start (c : N) : bool :=
  ((65 <=? c) && (c <=? 90) || (97 <=? c) && (c <=? 122) || (c =? 95) || (128 <=? c))%N.
Definition is_name_char (c : N) : bool := is_name_start c || is_digit c.
Definition is_number_char (c : N) : bool := is_name_char c || (c =? 46)%N.
Definition is_quote (c : N) : bool := ((c =? 34) || (c =? 39))%N.

Definition string_prefixes : list str :=
  map py [ "r"; "u"; "b"; "f"; "br"; "rb"; "fr"; "rf";
           "R"; "U"; "B"; "F"; "Br"; "bR"; "BR"; "Rb"; "rB"; "RB";
           "Fr"; "fR"; "FR"; "Rf"; "rF"; "RF" ]%string.

Definition operators3 : list str := map py [ "**="; "//="; ">>="; "<<="; "..." ]%string.
Definition operators2 : list str :=
  map py [ "**"; "//"; ">>"; "<<"; "<="; ">="; "=="; "!="; "->"; "+="; "-="; "*="; "/=";
           "%="; "&="; "|="; "^="; "@="; ":=" ]%string.
Definition operators1 : list N :=
  py "()[]{}:,;+-*/|&<>=.%~^@!".

(** The text of a quoted string from after its opening quote(s) on:
    (the string's remaining text with the closing quotes, what follows). *)
Fixpoint scan_quoted (q : N) (triple : bool) (s : str) : option (str * str) :=
  match s with
  | [] => None
  | c :: r =>
      if (c =? 92)%N then
        match r with
        | d :: r' => '(a, b) ← scan_quoted q triple r'; Some (c :: d :: a, b)
        | [] => None
        end
      else if (c =? q)%N then
        if triple then
          match r with
          | c1 :: c2 :: r' =>
              if ((c1 =? q) && (c2 =? q))%N then Some ([c; c1; c2], r')
              else '(a, b) ← scan_quoted q triple r; Some (c :: a, b)
          | _ => '(a, b) ← scan_quoted q triple r; Some (c :: a, b)
          end
        else Some ([c], r)
      else if (c =? 10)%N && negb triple then None
      else '(a, b) ← scan_quoted q triple r; Some (c :: a, b)
  end.

(** A string literal at the head of [s] (after an optional prefix). *)
Definition scan_string (s : str) : option (str * str) :=
  match s with
  | q :: r =>
      if is_quote q then
        match r with
        | q1 :: q2 :: r' =>
            if ((q1 =? q) && (q2 =? q))%N
            then '(a, b) ← scan_quoted q true r'; Some (q :: q1 :: q2 :: a, b)
            else '(a, b) ← scan_quoted q false r; Some (q :: a, b)
        | _ => '(a, b) ← scan_quoted q false r; Some (q :: a, b)
        end
      else None
  | [] => None
  end.

Definition scan_operator (s : str) : option (str * str) :=
  match find (fun o => starts_with o s) (operators3 ++ operators2) with
  | Some o => Some (o, drop (length o) s)
  | None =>
      match s with
      | c :: r => if bool_decide (c ∈ operators1) then Some ([c], r) else None
      | [] => None
      end
  end.

Definition indent_width (ws : str) : Z :=
  fold_left (fun w c => if (c =? 9)%N then ((w / 8 + 1) * 8)%Z
                        else if (c =? 12)%N then 0%Z else (w + 1)%Z)
            ws 0%Z.

(** Is the rest of the line empty or a comment? *)
Definition blank_line (rest : str) : bool :=
  match rest with
  | [] => true
  | c :: r => ((c =? 10) || (c =? 35))%N
              || ((c =? 13)%N && match r with d :: _ => (d =? 10)%N | [] => false end)
  end.

Definition ws_token (ws : str) (st : LexState) : list Token :=
  if bool_decide (ws = []) then [] else [tok "UNIMPORTANT_WS" ws st].

(** Pop the indentation levels above [w], one DEDENT each. *)
Fixpoint dedents (w : Z) (ind : list Z) (st : LexState) : list Token * list Z :=
  match ind with
  | top :: rest =>
      if (w <? top)%Z then let '(ts, ind') := dedents w rest st in (tok "DEDENT" [] st :: ts, ind')
      else ([], ind)
  | [] => ([], [])
  end.

Definition open_bracket (c : str) : bool := bool_decide (c ∈ map py ["("; "["; "{"]%string).
Definition close_bracket (c : str) : bool := bool_decide (c ∈ map py [")"; "]"; "}"]%string).

Fixpoint lex (fuel : nat) (st : LexState) (s : str) : list Token :=
  match fuel with
  | O => []
  | S fuel' =>
    match s with
    | [] =>
        (if ls_code st then [tok "NEWLINE" [] st] else [])
        ++ fst (dedents 0 (ls_indents st) st) ++ [tok "ENDMARKER" [] st]
    | c :: r =>
      if ls_bol st && (ls_depth st =? 0)%nat && negb (ls_code st) then
        (* start of a logical line: indentation *)
        let '(ws, rest) := span is_blank s in
        if blank_line rest then
          ws_token ws st ++ lex fuel' (set_flags 0 false false (advance ws st)) rest
        else
          let w := indent_width ws in
          let top := default 0%Z (head (ls_indents st)) in
          let st1 := advance ws st in
          if (top <? w)%Z then
            tok "INDENT" ws st
            :: lex fuel' (set_flags 0 false false (set_indents (w :: ls_indents st) st1)) rest
          else
            let '(ds, ind) := dedents w (ls_indents st) st1 in
            ws_token ws st ++ ds ++ lex fuel' (set_flags 0 false false (set_indents ind st1)) rest
      else if is_blank c then
        let '(ws, rest) := span is_blank s in
        tok "UNIMPORTANT_WS" ws st
        :: lex fuel' (set_flags (ls_depth st) false (ls_code st) (advance ws st)) rest
      else if (c =? 10)%N || ((c =? 13)%N && match r with d :: _ => (d =? 10)%N | [] => false end) then
        let text := if (c =? 10)%N then [c] else [c; 10%N] in
        let rest := if (c =? 10)%N then r else drop 1 r in
        let logical := (ls_depth st =? 0)%nat && ls_code st in
        tok (if logical then "NEWLINE" else "NL") text st
        :: lex fuel' (set_flags (ls_depth st) true (ls_code st && negb logical) (advance text st)) rest
      else if (c =? 35)%N then
        let '(text, rest) := span (fun x => negb (x =? 10)%N) s in
        tok "COMMENT" text st
        :: lex fuel' (set_flags (ls_depth st) false (ls_code st) (advance text st)) rest
      else if (c =? 92)%N && match r with d :: _ => (d =? 10)%N | [] => false end then
        let text := [c; 10%N] in
        tok "ESCAPED_NL" text st
        :: lex fuel' (set_flags (ls_depth st) false (ls_code st) (advance text st)) (drop 1 r)
      else
        (* a token of the logical line *)
        let '(nm, text, rest) :=
          let '(word, after) := span is_name_char s in
          if is_name_start c then
            if bool_decide (word ∈ string_prefixes) then
              match scan_string after with
              | Some (body, rest) => ("STRING"%string, word ++ body, rest)
              | None => ("NAME"%string, word, after)
              end
            else ("NAME"%string, word, after)
          else if is_digit c
                  || ((c =? 46)%N && match r with d :: _ => is_digit d | [] => false end) then
            let '(num, rest) := span is_number_char s in ("NUMBER"%string, num, rest)
          else if is_quote c then
            match scan_string s with
            | Some (body, rest) => ("STRING"%string, body, rest)
            | None => ("ERRORTOKEN"%string, [c], r)
            end
          else
            match scan_operator s with
            | Some (o, rest) => ("OP"%string, o, rest)
            | None => ("ERRORTOKEN"%string, [c], r)
            end in
        let depth :=
          if String.eqb nm "OP" && open_bracket text then S (ls_depth st)
          else if String.eqb nm "OP" && close_bracket text then Nat.pred (ls_depth st)
          else ls_depth st in
        tok nm text st :: lex fuel' (set_flags depth false true (advance text st)) rest
    end
  end.

Definition src_to_tokens (s : str) : list Token :=
  lex (2 * length s + 2) (mkLex 1 0 0 true false []) s.


(** *** The parser and the visitor *)

(** Do the brackets of a token list match?  [stack] holds the closing
    brackets that are due, innermost first. *)
Fixpoint balanced (stack : list str) (ts : list Token) : bool :=
  match ts with
  | [] => bool_decide (stack = [])
  | t :: r =>
      if String.eqb (name t) "ERRORTOKEN" then false
      else if negb (String.eqb (name t) "OP") then balanced stack r
      else if str_eqb (src t) (py "(") then balanced (py ")" :: stack) r
      else if str_eqb (src t) (py "[") then balanced (py "]" :: stack) r
      else if str_eqb (src t) (py "{") then balanced (py "}" :: stack) r
      else if close_bracket (src t) then
        match stack with
        | c :: stack' => str_eqb c (src t) && balanced stack' r
        | [] => false
        end
      else balanced stack r
  end.

(** Modelled from the spec: [ast_parse] of [_ast_helpers] is not among the
    embedded sources; the spec (section 6) only says that [parse(text)]
    fails on invalid syntax.  The reference parser rejects a text with a
    character that starts no token or with brackets that do not match
    (every parser of the language rejects those) and accepts the rest; the
    tree it returns carries no information. *)
Definition ast_parse (s : str) : option unit :=
  if balanced [] (src_to_tokens s) then Some () else None.

(** Modelled from the spec: [visit] and [FUNCS] of [_data] are not among the
    embedded sources.  The reference visitor registers no callback, so
    every bracket follows the generic rule of [_main.py]. *)
Definition visit (_ : unit) : gmap Offset (list callback) := ∅.

(** *** The bracket analyzer and the bracket rewriter *)

(** Modelled from the spec: the constant [START_BRACES] of [_token_helpers]
    (the opening "brace/bracket/parenthesis" of section 1). *)
Definition START_BRACES : list str := map py ["("; "{"; "["]%string.

Definition is_open (t : Token) : bool := String.eqb (name t) "OP" && open_bracket (src t).
Definition is_close (t : Token) : bool := String.eqb (name t) "OP" && close_bracket (src t).
Definition is_line_break (t : Token) : bool :=
  String.eqb (name t) "NL" || String.eqb (name t) "NEWLINE".
Definition is_filler (t : Token) : bool :=
  is_ws_name t || String.eqb (name t) "COMMENT" || String.eqb (name t) "ESCAPED_NL"
  || String.eqb (name t) "NEWLINE".

(** Step 1 of section 4.3: the number of tokens of [ts] before the close
    that matches an open bracket just before [ts]. *)
Fixpoint match_close (depth : nat) (ts : list Token) : option nat :=
  match ts with
  | [] => None
  | t :: r =>
      if is_open t then S <$> match_close (S depth) r
      else if is_close t then
        match depth with
        | O => Some O
        | S d => S <$> match_close d r
        end
      else S <$> match_close depth r
  end.

(** Step 3: the top-level comma-delimited groups of [ts] that hold a token
    other than whitespace and comments; [content] tells whether the group
    being read holds one already. *)
Fixpoint element_count (depth : nat) (content : bool) (ts : list Token) : nat :=
  match ts with
  | [] => if content then 1 else 0
  | t :: r =>
      if is_open t then element_count (S depth) true r
      else if is_close t then element_count (Nat.pred depth) true r
      else if (depth =? 0)%nat && str_eqb (src t) (py ",") then
        (if content then 1 else 0) + element_count depth false r
      else element_count depth (content || negb (is_filler t)) r
  end.

(** Modelled from the spec: [find_simple] of [_token_helpers] is not among
    the embedded sources; this is [analyze] of section 4.3.  Steps 1, 2, 3
    and 5 are as written there.  Of step 4, "it is empty" is as written;
    "it is not multiline" applies when [strict] is set; the two clauses
    on slices and on callbacks that exclude an offset need the syntax tree
    and have no counterpart here. *)
Definition find_simple (strict : bool) (i : Z) (tokens : list Token) : option Fix :=
  if (i <? 0)%Z then None
  else
    let inner := drop (S (Z.to_nat i)) tokens in
    n ← match_close 0 inner;
    let region := take n inner in
    let is_multiline := existsb is_line_break region in
    let count := element_count 0 false region in
    if (count =? 0)%nat || (strict && negb is_multiline) then None
    else Some (mkFix (i, i + 1 + Z.of_nat n)%Z (1 <=? count)%nat).

(** The text of the indentation of the physical line that holds token [k]:
    [before] is the tokens before [k], nearest first. *)
Fixpoint line_indent (before : list Token) (next : option Token) : str :=
  let here :=
    match next with
    | Some t => if String.eqb (name t) "INDENT" || String.eqb (name t) "UNIMPORTANT_WS"
                then src t else []
    | None => []
    end in
  match before with
  | [] => here
  | t :: r => if is_line_break t then here else line_indent r (Some t)
  end.

(** The index of the last token before [l] that is not whitespace, down to
    [f] at the lowest. *)
Fixpoint last_code (fuel : nat) (tokens : list Token) (f j : nat) : nat :=
  match fuel with
  | O => j
  | S fuel' =>
      if (j <=? f)%nat then j
      else match tokens !! j with
           | Some t => if is_ws_name t then last_code fuel' tokens f (Nat.pred j) else j
           | None => j
           end
  end.

Definition insert_at (k : nat) (t : Token) (tokens : list Token) : list Token :=
  take k tokens ++ t :: drop k tokens.

(** Modelled from the spec: [fix_brace] of [_token_helpers] is not among
    the embedded sources; this is section 4.4.  For a multiline region
    that is not empty: with [add_comma], the separator is inserted after
    the last token before the close that is not whitespace, unless that
    token is the separator; with [remove_comma], a separator there is
    deleted; then the whitespace before the close is set to the
    indentation of the line of the open bracket. *)
Definition fix_brace (tokens : list Token) (fix_data : option Fix)
    (add_comma remove_comma : bool) : list Token :=
  match fix_data with
  | None => tokens
  | Some fd =>
      let f := Z.to_nat (fst (braces fd)) in
      let l := Z.to_nat (snd (braces fd)) in
      let region := take (l - S f) (drop (S f) tokens) in
      let j := last_code l tokens f (Nat.pred l) in
      if negb (existsb is_line_break region) || (j <=? f)%nat then tokens
      else
        let has_comma :=
          match tokens !! j with Some t => str_eqb (src t) (py ",") | None => false end in
        let '(tokens, l) :=
          if add_comma && negb has_comma then (insert_at (S j) (Token_ "OP" (py ",")) tokens, S l)
          else if remove_comma && has_comma then (take j tokens ++ drop (S j) tokens, Nat.pred l)
          else (tokens, l) in
        let indent := line_indent (rev (take f tokens)) (tokens !! f) in
        match tokens !! Nat.pred l, tokens !! (l - 2)%nat with
        | Some back_1, Some back_2 =>
            if String.eqb (name back_1) "UNIMPORTANT_WS" && String.eqb (name back_2) "NL"
            then <[Nat.pred l := mkToken (name back_1) indent (line back_1) (utf8_byte_offset back_1)]> tokens
            else if String.eqb (name back_1) "NL" && negb (bool_decide (indent = []))
            then insert_at l (Token_ "UNIMPORTANT_WS" indent) tokens
            else tokens
        | _, _ => tokens
        end
  end.

(** The reference instance.  [strict] chooses whether the analyzer turns
    single-line regions down (step 4 of section 4.3). *)
Definition collab (strict : bool) : Collab :=
  mkCollab unit ast_parse visit src_to_tokens START_BRACES (find_simple strict) fix_brace.

End Ref.

(** * Vocabulary of the properties

    Relations on token lists, measures, and the texts and worlds the
    statements below are evaluated on. *)

(** A cp1252 text: its euro sign is the single byte 0x80, which no UTF-8
    text holds at that place. *)
Definition cp1252_bytes : list byte :=
  list_byte_of_string "# -*- coding: cp1252 -*-" ++ [x0a] ++ list_byte_of_string "x = " ++ [x80; x0a].

(** A world whose only file holds those bytes. *)
Definition cp1252_world : World := mkWorld {[ py "f.py" := cp1252_bytes ]} [] [] [].

(** A text that no parser of the language accepts (its last bracket closes
    nothing) and that holds the first hard-coded pattern. *)
Definition unparsable_text : str := py "x = (\qfoo\q\n     \qbar\q)\n)".

(** A module with an import before the statement that holds the pattern. *)
Definition text_with_import : str := py "import os\nx = (\qfoo\q\n     \qbar\q)\n".

(** An indented statement with a multiline subscript and a trailing comma. *)
Definition indented_subscript : str := py "if a:\n    x[\n        1,\n        2,\n    ]\n".

(** Every registered callback takes a token list to a related one. *)
Definition callbacks_respect (R : relation (list Token))
    (callbacks : gmap Offset (list callback)) : Prop :=
  forall off cbs, callbacks !! off = Some cbs ->
    Forall (fun cb : callback => forall i toks, R toks (cb i toks)) cbs.

(** A token stays, or a whitespace token becomes the token
    [Token('UNIMPORTANT_WS', '\n')]. *)
Definition ws_fix (t t' : Token) : Prop :=
  t' = t \/ (is_ws_name t = true /\ t' = Token_ "UNIMPORTANT_WS" (py "\n")).

(** The number of comma tokens. *)
Definition commas (toks : list Token) : nat :=
  length (filter (fun t => src t = py ",") toks).

(** A text in which the first skip pattern occurs, followed by a call that
    add mode would otherwise give a comma. *)
Definition text_with_skip_pattern : str := py "tuple(\n    a for a in b\n)\nx(\n    1\n)\n".

(** One change to a token list: a comma token is deleted, or a whitespace
    token is replaced by a whitespace token. *)
Inductive edit : list Token -> list Token -> Prop :=
| edit_comma l1 t l2 :
    src t = py "," -> edit (l1 ++ t :: l2) (l1 ++ l2)
| edit_ws l1 t t' l2 :
    is_ws_name t = true -> is_ws_name t' = true -> edit (l1 ++ t :: l2) (l1 ++ t' :: l2).

(** Any number of such changes. *)
Definition edits : relation (list Token) := rtc edit.

(** A call that raises no exception. *)
Definition no_raise {A} (m : outcome A) : Prop := forall e, m <> Raise e.

(** The descriptors of [find_simple] point into the token list: the closing
    bracket lies after the index asked about and inside the list. *)
Definition descriptors_in_range (E : Collab) : Prop :=
  forall i toks fd, find_simple E i toks = Some fd ->
    (i < snd (braces fd) < Z.of_nat (length toks))%Z.

(** No descriptor, or one whose [multi_arg] is unset. *)
Definition lacks_multi_arg (fix_data : option Fix) : bool :=
  match fix_data with
  | None => true
  | Some fd => negb (multi_arg fd)
  end.

(** The text of the repository's test [test_main_preserve_single_tuple_comma]. *)
Definition single_and_multi : str := py "single = (1,)\n\nmulti = (1, 2,)\n".

(** [k > 0 and tokens[k - 1].src == 'def'] *)
Definition prev_is_def (toks : list Token) (k : Z) : bool :=
  (0 <? k)%Z &&
  match toks !! Z.to_nat (k - 1) with
  | Some t1 => str_eqb (src t1) (py "def")
  | None => false
  end.

(** A world with one file. *)
Definition one_file (filename text : str) : World :=
  mkWorld {[ filename := default [] (utf8_encode text) ]} [] [] [].

(** The arguments of a run without flags. *)
Definition default_args (names : list str) : Args := mkArgs names false false false false.

(** Every file of the world holds valid UTF-8. *)
Definition files_decodable (w : World) : Prop :=
  forall f data, fs w !! f = Some data -> is_Some (utf8_decode data).

(** The message [fix_file] prints before it writes a file. *)
Definition rewriting_message (filename : str) : str := py "Rewriting " ++ filename.

(** A world with a file that is rewritten and one that is not named. *)
Definition two_files : World :=
  mkWorld (<[ py "g.py" := default [] (utf8_encode (py "y(\n    2\n)\n")) ]>
             {[ py "f.py" := default [] (utf8_encode (py "x(\n    1\n)\n")) ]}) [] [] [].

(** A text with the fourth skip pattern and, after it, a call with a
    trailing comma. *)
Definition text_with_pattern_and_comma : str :=
  py "x = (\n    object\n), object\nf(\n    1,\n)\n".

(** A registered callback is applied to the token list. *)
Definition callback_step (callbacks : gmap Offset (list callback)) : relation (list Token) :=
  fun toks toks' =>
    exists off cbs (cb : callback) i,
      callbacks !! off = Some cbs /\ cb ∈ cbs /\ toks' = cb i toks.

(** What [_fix_unhugged_brace] does with the descriptor [fd]: nothing, or
    the whitespace token at [last_brace - 1] becomes
    [Token('UNIMPORTANT_WS', '\n')]. *)
Definition unhugged (fd : Fix) : relation (list Token) :=
  fun toks toks' =>
    toks' = toks
    \/ exists (k : nat) (t : Token),
         py_index toks (snd (braces fd) - 1) = Ret k
         /\ toks !! k = Some t /\ is_ws_name t = true
         /\ toks' = <[k := Token_ "UNIMPORTANT_WS" (py "\n")]> toks.

(** What the removal of lines 157-171 does in the region that [fd]
    describes, opened at [i]: nothing, or (when the skip test fails and the
    single-element rule answers [False]) it deletes the comma token that is
    the last token of the region but for whitespace tokens. *)
Definition comma_deleted (contents_text : str) (i : Z) (fd : Fix) : relation (list Token) :=
  fun toks toks' =>
    toks' = toks
    \/ (_should_skip_adding_comma contents_text (Some fd) = false
        /\ _is_single_element_tuple toks i (snd (braces fd)) = Ret false
        /\ exists (j : Z) (t : Token),
             (i < j < snd (braces fd))%Z
             /\ toks !! Z.to_nat j = Some t /\ src t = py ","
             /\ (forall k, (j < k < snd (braces fd))%Z ->
                   exists tk, toks !! Z.to_nat k = Some tk /\ is_ws_name tk = true)
             /\ toks' = delete (Z.to_nat j) toks).

(** What an iteration of the loop of remove mode does by itself, after the
    callbacks: at an index [i] for which [find_simple] returns a descriptor
    with [multi_arg] set, the removal and then [_fix_unhugged_brace], both
    with that descriptor. *)
Inductive region_step (E : Collab) (contents_text : str) : relation (list Token) :=
| region_step_at toks i fd toks1 toks' :
    (0 <= i)%Z ->
    find_simple E i toks = Some fd -> multi_arg fd = true ->
    comma_deleted contents_text i fd toks toks1 ->
    unhugged fd toks1 toks' ->
    region_step E contents_text toks toks'.

(** The steps of a run of remove mode. *)
Definition remove_mode_step (E : Collab) (contents_text : str)
    (callbacks : gmap Offset (list callback)) : relation (list Token) :=
  fun toks toks' => callback_step callbacks toks toks' \/ region_step E contents_text toks toks'.

(** The steps of a run of add mode on a text that a skip pattern matches. *)
Definition skip_mode_step (E : Collab) (callbacks : gmap Offset (list callback))
    : relation (list Token) :=
  fun toks toks' =>
    callback_step callbacks toks toks'
    \/ exists i fd, find_simple E i toks = Some fd /\ multi_arg fd = true /\ unhugged fd toks toks'.

(** A token list that is not longer than another. *)
Definition no_longer : relation (list Token) := fun toks toks' => length toks' <= length toks.

(** A callback for a call, of the kind section 4.2 lets the tree walker
    register (a callback may alter the tokens near its index): run at the
    name of the call, it hands the bracket that follows to [fix_brace] with
    [add_comma] and [remove_comma] set. *)
Definition call_callback : callback :=
  fun i tokens => Ref.fix_brace tokens (Ref.find_simple true (i + 1) tokens) true true.

(** The reference instance with the strict analyzer, and that callback
    registered at the offset of the name [x] on line 4 of
    [text_with_skip_pattern]. *)
Definition collab_with_call_callback : Collab :=
  mkCollab unit Ref.ast_parse (fun _ => {[ (Some 4%Z, Some 0%Z) := [call_callback] ]})
    Ref.src_to_tokens Ref.START_BRACES (Ref.find_simple true) Ref.fix_brace.

(** A text with a multiline call and, after it, a tuple on one line; both
    end with a comma. *)
Definition described_and_undescribed : str := py "f(\n    1,\n)\nx = (2, 3,)\n".

(** An indented call without any comma. *)
Definition indented_call : str := py "if a:\n    f(\n        1\n    )\n".

(** A call in a file with [\r\n] line ends. *)
Definition crlf_call : str := py "x(\r\n    1\r\n)\r\n".

(** * Properties *)

(** ** The outcome monad and fuel *)

Lemma bind_Ret {A B} (m : outcome A) (f : A -> outcome B) (b : B) :
  m ≫= f = Ret b -> exists a, m = Ret a /\ f a = Ret b.
Proof. destruct m as [a| |]; simpl; [eauto | discriminate | discriminate]. Qed.

Lemma bind_fuel {A B} (m : outcome A) (f : A -> outcome B) :
  m <> OutOfFuel -> (forall a, m = Ret a -> f a <> OutOfFuel) -> m ≫= f <> OutOfFuel.
Proof. destruct m as [a| |]; simpl; intros Hm Hf; [now apply Hf | discriminate | done]. Qed.

Lemma bind_no_raise {A B} (m : outcome A) (f : A -> outcome B) :
  no_raise m -> (forall a, m = Ret a -> no_raise (f a)) -> no_raise (m ≫= f).
Proof.
  intros Hm Hf e. destruct m as [a|e'|]; simpl; [now apply Hf | now destruct (Hm e') | discriminate].
Qed.

Lemma no_raise_Ret {A} (a : A) : no_raise (Ret a).
Proof. intros e. discriminate. Qed.

Lemma no_raise_OutOfFuel {A} : no_raise (@OutOfFuel A).
Proof. intros e. discriminate. Qed.

Create HintDb noraise.
#[local] Hint Resolve no_raise_Ret no_raise_OutOfFuel : noraise.

(** More fuel does not change a result. *)
Lemma changing_list_more_fuel body fuel :
  forall i lst r k,
    _changing_list fuel body i lst = Ret r ->
    _changing_list (fuel + k) body i lst = Ret r.
Proof.
  induction fuel as [|fuel IH]; intros i lst r k H; simpl in *.
  - destruct (i <? Z.of_nat (length lst))%Z eqn:Hc; [discriminate|].
    destruct k; simpl; rewrite Hc; exact H.
  - destruct (i <? Z.of_nat (length lst))%Z; [|exact H].
    apply bind_Ret in H as (token & -> & H). simpl.
    apply bind_Ret in H as (lst' & -> & H). simpl.
    now apply IH.
Qed.

Lemma fix_src_more_fuel E fuel s rm r k :
  _fix_src E fuel s rm = Ret r -> _fix_src E (fuel + k) s rm = Ret r.
Proof.
  unfold _fix_src, _remove_trailing_commas. intros H.
  destruct rm.
  - destruct (ast_parse E s); [|exact H].
    apply bind_Ret in H as (t & H & Ht).
    now rewrite (changing_list_more_fuel _ _ _ _ _ k H).
  - destruct (find _ hard_coded) as [[? ?]|]; [exact H|].
    destruct (ast_parse E s); [|exact H].
    apply bind_Ret in H as (t & H & Ht).
    now rewrite (changing_list_more_fuel _ _ _ _ _ k H).
Qed.

(** ** Indexing *)

Lemma py_index_lt {A} (l : list A) i k : py_index l i = Ret k -> k < length l.
Proof.
  unfold py_index. intros H.
  destruct ((0 <=? i)%Z && (i <? Z.of_nat (length l))%Z) eqn:H1.
  - injection H as <-. apply andb_true_iff in H1 as [H0 H1]. lia.
  - destruct ((- Z.of_nat (length l) <=? i)%Z && (i <? 0)%Z) eqn:H2; [|discriminate].
    injection H as <-. apply andb_true_iff in H2 as [H0 H2]. lia.
Qed.

Lemma py_get_Ret {A} (l : list A) i x :
  py_get l i = Ret x -> exists k, py_index l i = Ret k /\ l !! k = Some x.
Proof.
  unfold py_get. intros H. apply bind_Ret in H as (k & Hk & H).
  exists k. split; [exact Hk|]. destruct (l !! k); congruence.
Qed.

(** Indexing needs no fuel. *)
Lemma py_index_fuel {A} (l : list A) i : py_index l i <> OutOfFuel.
Proof. unfold py_index. repeat (destruct (_ && _)); discriminate. Qed.

Lemma py_get_fuel {A} (l : list A) i : py_get l i <> OutOfFuel.
Proof.
  unfold py_get. destruct (py_index l i) as [k| |] eqn:Hk; simpl;
    [destruct (l !! k); discriminate | discriminate | now apply py_index_fuel in Hk].
Qed.

Lemma py_set_fuel {A} (l : list A) i x : py_set l i x <> OutOfFuel.
Proof.
  unfold py_set. destruct (py_index l i) as [k| |] eqn:Hk; simpl;
    [discriminate | discriminate | now apply py_index_fuel in Hk].
Qed.

Lemma py_index_nonneg {A} (l : list A) i k :
  (0 <= i)%Z -> py_index l i = Ret k -> k = Z.to_nat i /\ (i < Z.of_nat (length l))%Z.
Proof.
  unfold py_index. intros Hi H.
  destruct (Z.leb_spec 0 i); [|lia].
  destruct (Z.ltb_spec i (Z.of_nat (length l))); simpl in H.
  - injection H as <-. auto.
  - destruct (Z.leb_spec (- Z.of_nat (length l)) i); destruct (Z.ltb_spec i 0);
      simpl in H; try discriminate; lia.
Qed.

Lemma py_get_valid {A} (l : list A) (i : Z) :
  (0 <= i < Z.of_nat (length l))%Z ->
  exists x, py_get l i = Ret x /\ l !! Z.to_nat i = Some x.
Proof.
  intros Hi. destruct (l !! Z.to_nat i) as [x|] eqn:Hl.
  - exists x. split; [|reflexivity]. unfold py_get, py_index.
    destruct (Z.leb_spec 0 i); [|lia]. destruct (Z.ltb_spec i (Z.of_nat (length l))); [|lia].
    simpl. now rewrite Hl.
  - apply lookup_ge_None in Hl. lia.
Qed.

(** [tokens[j:j + 1] = []] at a valid index takes out the token at [j]. *)
Lemma py_del_slice_at {A} (l : list A) (j : Z) :
  (0 <= j < Z.of_nat (length l))%Z ->
  py_del_slice l j (j + 1) = take (Z.to_nat j) l ++ drop (S (Z.to_nat j)) l.
Proof.
  intros Hj. unfold py_del_slice, slice_bound.
  destruct (Z.ltb_spec j 0); [lia|]. destruct (Z.ltb_spec (j + 1) 0); [lia|].
  f_equal; f_equal; lia.
Qed.

Lemma py_get_no_raise {A} (l : list A) (i : Z) :
  (0 <= i < Z.of_nat (length l))%Z -> no_raise (py_get l i).
Proof. intros Hi e. destruct (py_get_valid l i Hi) as (x & -> & _). discriminate. Qed.

Lemma py_set_no_raise {A} (l : list A) (i : Z) (x : A) :
  (0 <= i < Z.of_nat (length l))%Z -> no_raise (py_set l i x).
Proof.
  intros Hi e. unfold py_set, py_index.
  destruct (Z.leb_spec 0 i); [|lia]. destruct (Z.ltb_spec i (Z.of_nat (length l))); [|lia].
  discriminate.
Qed.

Lemma str_eqb_eq (a b : str) : str_eqb a b = true -> a = b.
Proof. unfold str_eqb. apply bool_decide_eq_true. Qed.

(** ** Callbacks *)

Lemma callbacks_respect_empty R : callbacks_respect R ∅.
Proof. intros off cbs H. rewrite lookup_empty in H. discriminate. Qed.

Lemma run_callbacks_respect (R : relation (list Token)) callbacks token i toks :
  Reflexive R -> Transitive R ->
  callbacks_respect R callbacks ->
  R toks (run_callbacks callbacks token i toks).
Proof.
  intros Hrefl Htrans Hcb. unfold run_callbacks.
  destruct (callbacks !! offset token) as [cbs|] eqn:Hl; simpl; [|apply Hrefl].
  specialize (Hcb _ _ Hl). clear Hl.
  revert toks. induction Hcb as [|cb cbs Hc _ IH]; intros toks; simpl; [apply Hrefl|].
  eapply Htrans; [apply Hc | apply IH].
Qed.

(** ** The inner loops end *)

Lemma fix_unhugged_brace_fuel i toks fix_data :
  _fix_unhugged_brace i toks fix_data <> OutOfFuel.
Proof.
  unfold _fix_unhugged_brace. destruct fix_data as [fd|]; [|discriminate].
  destruct (negb (multi_arg fd)); [discriminate|].
  destruct (py_get toks _) as [t| |] eqn:Hg; simpl;
    [|discriminate|now apply py_get_fuel in Hg].
  destruct (is_ws_name t); [apply py_set_fuel | discriminate].
Qed.

Lemma skip_to_comma_ok toks fuel : forall j last_brace,
  Z.to_nat (last_brace - j) <= fuel ->
  match skip_to_comma fuel toks j last_brace with
  | Ret j1 => (j <= j1)%Z
  | Raise _ => True
  | OutOfFuel => False
  end.
Proof.
  induction fuel as [|fuel IH]; intros j lb Hf; simpl;
    destruct (Z.ltb_spec j lb) as [Hj|Hj]; simpl; try lia;
    (destruct (py_get toks j) as [t| |] eqn:Hg; simpl; [|done|now apply py_get_fuel in Hg]);
    (destruct (is_ws_name t || negb (str_eqb (src t) (py ","))); simpl; [|lia]);
    try lia.
  specialize (IH (j + 1)%Z lb). destruct (skip_to_comma fuel toks (j + 1)%Z lb); lia.
Qed.

Lemma count_args_fuel toks fuel : forall j last_brace arg_count,
  Z.to_nat (last_brace - j) <= fuel ->
  count_args fuel toks j last_brace arg_count <> OutOfFuel.
Proof.
  induction fuel as [|fuel IH]; intros j lb ac Hf; simpl;
    destruct (Z.ltb_spec j lb) as [Hj|Hj]; try discriminate; [lia|].
  apply bind_fuel; [apply py_get_fuel|]. intros t _.
  destruct (is_value_name t); [|apply IH; lia].
  pose proof (skip_to_comma_ok toks (Z.to_nat (lb - (j + 1))) (j + 1)%Z lb (le_n _)) as Hs.
  destruct (skip_to_comma _ toks (j + 1)%Z lb) as [j1| |]; simpl; [|discriminate|done].
  destruct (j1 <? lb)%Z.
  - destruct (py_get toks j1) as [t1| |] eqn:Hg; simpl;
      [|discriminate|now apply py_get_fuel in Hg].
    apply IH. destruct (str_eqb (src t1) (py ",")); lia.
  - simpl. apply IH. lia.
Qed.

Lemma skip_ws_back_fuel toks fuel : forall k,
  Z.to_nat (k + 1) <= fuel -> skip_ws_back fuel toks k <> OutOfFuel.
Proof.
  induction fuel as [|fuel IH]; intros k Hf; simpl;
    destruct (Z.leb_spec 0 k) as [Hk|Hk]; try discriminate;
    (apply bind_fuel; [apply py_get_fuel|]; intros t _;
     destruct (is_ws_name t); [|discriminate]).
  - lia.
  - apply IH. lia.
Qed.

Lemma skip_ws_back_to_fuel toks fuel : forall i j,
  Z.to_nat (j - i) <= fuel -> skip_ws_back_to fuel toks i j <> OutOfFuel.
Proof.
  induction fuel as [|fuel IH]; intros i j Hf; simpl;
    destruct (Z.ltb_spec i j) as [Hj|Hj]; try discriminate;
    (apply bind_fuel; [apply py_get_fuel|]; intros t _;
     destruct (is_ws_name t); [|discriminate]).
  - lia.
  - apply IH. lia.
Qed.

Lemma is_single_element_tuple_fuel toks i last_brace :
  _is_single_element_tuple toks i last_brace <> OutOfFuel.
Proof.
  unfold _is_single_element_tuple.
  apply bind_fuel; [apply count_args_fuel; lia|]. intros ac _.
  destruct (negb (ac =? 1)%Z); [discriminate|].
  apply bind_fuel; [apply py_get_fuel|]. intros ti _.
  destruct (negb _); [discriminate|].
  apply bind_fuel; [apply skip_ws_back_fuel; lia|]. intros k _.
  destruct (k <? 0)%Z; [discriminate|].
  apply bind_fuel; [apply py_get_fuel|]. intros tk _.
  apply bind_fuel.
  - destruct (str_eqb (src tk) (py "import")); [discriminate|].
    destruct (_ && _); [|discriminate].
    apply bind_fuel; [apply py_get_fuel | discriminate].
  - intros b1 _. apply bind_fuel; [|discriminate].
    destruct (str_eqb (src tk) (py "def")); [discriminate|].
    destruct (0 <? k)%Z; [|discriminate].
    apply bind_fuel; [apply py_get_fuel | discriminate].
Qed.

Lemma remove_comma_at_fuel toks i fd : remove_comma_at toks i fd <> OutOfFuel.
Proof.
  unfold remove_comma_at.
  apply bind_fuel; [apply is_single_element_tuple_fuel|]. intros single _.
  destruct single; [discriminate|].
  apply bind_fuel; [apply skip_ws_back_to_fuel; lia|]. intros j _.
  destruct (i <? j)%Z; [|discriminate].
  apply bind_fuel; [apply py_get_fuel|]. intros t _.
  destruct (str_eqb _ _); discriminate.
Qed.

Lemma remove_body_fuel E s callbacks i token toks :
  remove_body E s callbacks i token toks <> OutOfFuel.
Proof.
  unfold remove_body.
  destruct (bool_decide (src token = [])); [discriminate|].
  destruct (is_start_brace E token); [|discriminate].
  destruct (find_simple E i _) as [fd|]; [|apply fix_unhugged_brace_fuel].
  destruct (_ && _); [|apply fix_unhugged_brace_fuel].
  apply bind_fuel; [apply remove_comma_at_fuel|]. intros [toks'|] _;
    [apply fix_unhugged_brace_fuel | discriminate].
Qed.

(** ** No [IndexError] with descriptors in range *)

Lemma fix_unhugged_brace_no_raise i toks fix_data :
  (forall fd, fix_data = Some fd -> (1 <= snd (braces fd) <= Z.of_nat (length toks))%Z) ->
  no_raise (_fix_unhugged_brace i toks fix_data).
Proof.
  intros Hr. unfold _fix_unhugged_brace.
  destruct fix_data as [fd|]; [|auto with noraise].
  specialize (Hr fd eq_refl).
  destruct (negb (multi_arg fd)); [auto with noraise|].
  apply bind_no_raise; [apply py_get_no_raise; lia|]. intros t _.
  destruct (is_ws_name t); [apply py_set_no_raise; lia | auto with noraise].
Qed.

Lemma skip_to_comma_no_raise toks fuel : forall j last_brace,
  (0 <= j)%Z -> (last_brace <= Z.of_nat (length toks))%Z ->
  no_raise (skip_to_comma fuel toks j last_brace).
Proof.
  induction fuel as [|fuel IH]; intros j lb Hj Hlb; simpl;
    destruct (Z.ltb_spec j lb); auto with noraise;
    (apply bind_no_raise; [apply py_get_no_raise; lia|]; intros t _;
     destruct (_ || _); auto with noraise).
  apply IH; lia.
Qed.

Lemma count_args_no_raise toks fuel : forall j last_brace arg_count,
  (0 <= j)%Z -> (last_brace <= Z.of_nat (length toks))%Z ->
  no_raise (count_args fuel toks j last_brace arg_count).
Proof.
  induction fuel as [|fuel IH]; intros j lb ac Hj Hlb; simpl;
    destruct (Z.ltb_spec j lb); auto with noraise.
  apply bind_no_raise; [apply py_get_no_raise; lia|]. intros t _.
  destruct (is_value_name t); [|apply IH; lia].
  pose proof (skip_to_comma_ok toks (Z.to_nat (lb - (j + 1))) (j + 1)%Z lb (le_n _)) as Hs.
  apply bind_no_raise; [apply skip_to_comma_no_raise; lia|]. intros j1 Hj1.
  rewrite Hj1 in Hs.
  destruct (Z.ltb_spec j1 lb).
  - apply bind_no_raise; [apply bind_no_raise; [apply py_get_no_raise; lia | auto with noraise]|].
    intros j2 Hj2. apply bind_Ret in Hj2 as (t1 & _ & Hj2). injection Hj2 as <-.
    apply IH; [destruct (str_eqb _ _); lia | lia].
  - simpl. apply IH; lia.
Qed.

Lemma skip_ws_back_le toks fuel : forall k k',
  skip_ws_back fuel toks k = Ret k' -> (k' <= k)%Z.
Proof.
  induction fuel as [|fuel IH]; intros k k' H; simpl in H;
    (destruct (0 <=? k)%Z; [|injection H as <-; lia]);
    apply bind_Ret in H as (t & _ & H);
    (destruct (is_ws_name t); [|injection H as <-; lia]).
  - discriminate.
  - apply IH in H. lia.
Qed.

Lemma skip_ws_back_no_raise toks fuel : forall k,
  (k < Z.of_nat (length toks))%Z -> no_raise (skip_ws_back fuel toks k).
Proof.
  induction fuel as [|fuel IH]; intros k Hk; simpl;
    destruct (Z.leb_spec 0 k); auto with noraise;
    (apply bind_no_raise; [apply py_get_no_raise; lia|]; intros t _;
     destruct (is_ws_name t); auto with noraise).
  apply IH; lia.
Qed.

Lemma skip_ws_back_to_no_raise toks fuel : forall i j,
  (0 <= i)%Z -> (j < Z.of_nat (length toks))%Z -> no_raise (skip_ws_back_to fuel toks i j).
Proof.
  induction fuel as [|fuel IH]; intros i j Hi Hj; simpl;
    destruct (Z.ltb_spec i j); auto with noraise;
    (apply bind_no_raise; [apply py_get_no_raise; lia|]; intros t _;
     destruct (is_ws_name t); auto with noraise).
  apply IH; lia.
Qed.

Lemma is_single_element_tuple_no_raise toks i last_brace :
  (0 <= i < Z.of_nat (length toks))%Z -> (last_brace <= Z.of_nat (length toks))%Z ->
  no_raise (_is_single_element_tuple toks i last_brace).
Proof.
  intros Hi Hlb. unfold _is_single_element_tuple.
  apply bind_no_raise; [apply count_args_no_raise; lia|]. intros ac _.
  destruct (negb (ac =? 1)%Z); [auto with noraise|].
  apply bind_no_raise; [apply py_get_no_raise; lia|]. intros ti _.
  destruct (negb _); [auto with noraise|].
  apply bind_no_raise; [apply skip_ws_back_no_raise; lia|]. intros k Hk.
  apply skip_ws_back_le in Hk.
  destruct (Z.ltb_spec k 0); [auto with noraise|].
  apply bind_no_raise; [apply py_get_no_raise; lia|]. intros tk _.
  apply bind_no_raise.
  - destruct (str_eqb (src tk) (py "import")); [auto with noraise|].
    destruct (Z.ltb_spec 0 k); simpl; [|auto with noraise].
    destruct (str_eqb (src tk) (py "from")); [|auto with noraise].
    apply bind_no_raise; [apply py_get_no_raise; lia | auto with noraise].
  - intros b1 _. apply bind_no_raise; [|auto with noraise].
    destruct (str_eqb (src tk) (py "def")); [auto with noraise|].
    destruct (Z.ltb_spec 0 k); [|auto with noraise].
    apply bind_no_raise; [apply py_get_no_raise; lia | auto with noraise].
Qed.

Lemma skip_ws_back_to_le toks fuel : forall i j j',
  skip_ws_back_to fuel toks i j = Ret j' -> (j' <= j)%Z.
Proof.
  induction fuel as [|fuel IH]; intros i j j' H; simpl in H;
    (destruct (i <? j)%Z; [|injection H as <-; lia]);
    apply bind_Ret in H as (t & _ & H);
    (destruct (is_ws_name t); [|injection H as <-; lia]).
  - discriminate.
  - apply IH in H. lia.
Qed.

Lemma remove_comma_at_no_raise toks i fd :
  (0 <= i < snd (braces fd))%Z -> (snd (braces fd) < Z.of_nat (length toks))%Z ->
  no_raise (remove_comma_at toks i fd).
Proof.
  intros Hi Hlb. unfold remove_comma_at.
  apply bind_no_raise; [apply is_single_element_tuple_no_raise; lia|]. intros single _.
  destruct single; [auto with noraise|].
  apply bind_no_raise; [apply skip_ws_back_to_no_raise; lia|]. intros j Hj.
  apply skip_ws_back_to_le in Hj.
  destruct (Z.ltb_spec i j); [|auto with noraise].
  apply bind_no_raise; [apply py_get_no_raise; lia|]. intros t _.
  destruct (str_eqb _ _); auto with noraise.
Qed.

(** The removal takes out one token at most. *)
Lemma remove_comma_at_length toks i fd toks' :
  (0 <= i)%Z -> remove_comma_at toks i fd = Ret (Some toks') ->
  length toks <= S (length toks').
Proof.
  unfold remove_comma_at. intros Hi H.
  apply bind_Ret in H as (single & _ & H).
  destruct single; [discriminate|].
  apply bind_Ret in H as (j & _ & H).
  destruct (Z.ltb_spec i j) as [Hj|Hj]; [|injection H as <-; lia].
  apply bind_Ret in H as (t & Ht & H).
  destruct (str_eqb (src t) (py ",")); [|injection H as <-; lia].
  injection H as <-.
  apply py_get_Ret in Ht as (k & Hk & Hl).
  apply py_index_nonneg in Hk as [-> Hlen]; [|lia].
  rewrite py_del_slice_at by lia.
  rewrite length_app, length_take, length_drop. lia.
Qed.

Section InRange.
Context (E : Collab) (contents_text : str) (callbacks : gmap Offset (list callback)).
Hypothesis Hrange : descriptors_in_range E.

Lemma remove_body_no_raise i token toks :
  (0 <= i)%Z -> no_raise (remove_body E contents_text callbacks i token toks).
Proof.
  intros Hi. unfold remove_body.
  destruct (bool_decide (src token = [])); [auto with noraise|].
  destruct (is_start_brace E token); [|auto with noraise].
  destruct (find_simple E i _) as [fd|] eqn:Hf;
    [|apply fix_unhugged_brace_no_raise; discriminate].
  pose proof (Hrange _ _ _ Hf) as Hfd.
  destruct (_ && _).
  - apply bind_no_raise; [apply remove_comma_at_no_raise; lia|].
    intros [toks'|] Hr; [|auto with noraise].
    apply remove_comma_at_length in Hr; [|exact Hi].
    apply fix_unhugged_brace_no_raise. intros ? [= <-]. lia.
  - apply fix_unhugged_brace_no_raise. intros ? [= <-]. lia.
Qed.

Lemma add_body_no_raise i token toks :
  (0 <= i)%Z -> no_raise (add_body E contents_text callbacks i token toks).
Proof.
  intros Hi. unfold add_body.
  destruct (bool_decide (src token = [])); [auto with noraise|].
  destruct (is_start_brace E token); [|auto with noraise].
  destruct (negb _); [auto with noraise|].
  apply fix_unhugged_brace_no_raise. intros fd Hf. apply Hrange in Hf. lia.
Qed.

(** A loop whose body raises nothing raises nothing. *)
Lemma changing_list_no_raise body fuel :
  (forall i token toks, (0 <= i)%Z -> no_raise (body i token toks)) ->
  forall i toks, (0 <= i)%Z -> no_raise (_changing_list fuel body i toks).
Proof.
  intros Hbody. induction fuel as [|fuel IH]; intros i toks Hi; simpl;
    destruct (Z.ltb_spec i (Z.of_nat (length toks))); auto with noraise.
  apply bind_no_raise; [apply py_get_no_raise; lia|]. intros token _.
  apply bind_no_raise; [now apply Hbody|]. intros toks' _.
  apply IH; lia.
Qed.
End InRange.

(** The descriptors of the reference analyzer are in range. *)
Lemma match_close_lt : forall ts depth n, Ref.match_close depth ts = Some n -> n < length ts.
Proof.
  induction ts as [|t r IH]; intros depth n H; simpl in H; [discriminate|].
  destruct (Ref.is_open t).
  - destruct (Ref.match_close (S depth) r) as [m|] eqn:Hm; [|discriminate].
    injection H as <-. apply IH in Hm. simpl. lia.
  - destruct (Ref.is_close t).
    + destruct depth as [|d]; [injection H as <-; simpl; lia|].
      destruct (Ref.match_close d r) as [m|] eqn:Hm; [|discriminate].
      injection H as <-. apply IH in Hm. simpl. lia.
    + destruct (Ref.match_close depth r) as [m|] eqn:Hm; [|discriminate].
      injection H as <-. apply IH in Hm. simpl. lia.
Qed.

(** With descriptors in range, [_fix_src] raises no [IndexError]. *)
Lemma fix_src_no_raise (E : Collab) (fuel : nat) (s : str) (rm : bool) :
  descriptors_in_range E -> no_raise (_fix_src E fuel s rm).
Proof.
  intros Hr. unfold _fix_src, _remove_trailing_commas. destruct rm.
  - destruct (ast_parse E s); [|auto with noraise].
    apply bind_no_raise; [|auto with noraise].
    apply changing_list_no_raise; [|lia]. intros. now apply remove_body_no_raise.
  - destruct (find _ hard_coded) as [[? ?]|]; [auto with noraise|].
    destruct (ast_parse E s); [|auto with noraise].
    apply bind_no_raise; [|auto with noraise].
    apply changing_list_no_raise; [|lia]. intros. now apply add_body_no_raise.
Qed.

Lemma ref_descriptors_in_range strict : descriptors_in_range (Ref.collab strict).
Proof.
  intros i toks fd H. simpl in H. unfold Ref.find_simple in H.
  destruct (Z.ltb_spec i 0); [discriminate|].
  destruct (Ref.match_close 0 _) as [n|] eqn:Hm; [|discriminate]. simpl in H.
  destruct (_ || _); [discriminate|]. injection H as <-. simpl.
  apply match_close_lt in Hm. rewrite length_drop in Hm. lia.
Qed.

(** ** Add mode when a skip pattern matches the text *)

Lemma ws_fix_refl : Reflexive (Forall2 ws_fix).
Proof. intros l. apply Forall2_same_length_lookup_2; [done|]. intros; left; congruence. Qed.

Lemma ws_fix_trans : Transitive (Forall2 ws_fix).
Proof.
  intros l1 l2 l3 H12 H23. eapply Forall2_trans; [|exact H12|exact H23].
  intros a b c [->|[Ha ->]] [->|[Hb ->]]; unfold ws_fix; auto.
Qed.

(** What [_fix_unhugged_brace] returns differs from its input in at most one
    whitespace token, replaced by [Token('UNIMPORTANT_WS', '\n')]. *)
Lemma fix_unhugged_brace_ws_fix i toks fix_data toks' :
  _fix_unhugged_brace i toks fix_data = Ret toks' -> Forall2 ws_fix toks toks'.
Proof.
  unfold _fix_unhugged_brace. intros H.
  destruct fix_data as [fd|]; [|injection H as <-; apply ws_fix_refl].
  destruct (negb (multi_arg fd)); [injection H as <-; apply ws_fix_refl|].
  apply bind_Ret in H as (t & Ht & H).
  destruct (is_ws_name t) eqn:Hws; [|injection H as <-; apply ws_fix_refl].
  apply py_get_Ret in Ht as (k & Hk & Hl).
  unfold py_set in H. rewrite Hk in H. simpl in H. injection H as <-.
  rewrite <- (list_insert_id toks k t Hl) at 1.
  apply Forall2_insert; [apply ws_fix_refl|]. right. auto.
Qed.

Lemma ws_fix_commas toks toks' : Forall2 ws_fix toks toks' -> commas toks' <= commas toks.
Proof.
  unfold commas. induction 1 as [|t t' l l' Ht _ IH]; [done|].
  rewrite !filter_cons.
  destruct Ht as [->|[_ ->]].
  - destruct (decide (src t = py ",")); simpl; lia.
  - destruct (decide (src (Token_ "UNIMPORTANT_WS" (py "\n")) = py ",")) as [Hc|_];
      [vm_compute in Hc; discriminate|].
    destruct (decide (src t = py ",")); simpl; lia.
Qed.

Section Skip.
Context (E : Collab) (contents_text : str) (callbacks : gmap Offset (list callback)).
Hypothesis Hskip : existsb (fun pattern => re_search pattern contents_text) test_patterns = true.
Hypothesis Hcb : callbacks_respect (Forall2 ws_fix) callbacks.

(** With a skip pattern in the text, [_should_skip_adding_comma] holds for
    every region. *)
Lemma should_skip_always fix_data : _should_skip_adding_comma contents_text fix_data = true.
Proof. destruct fix_data; simpl; [exact Hskip | reflexivity]. Qed.

Lemma add_body_skip i token toks toks' :
  add_body E contents_text callbacks i token toks = Ret toks' -> Forall2 ws_fix toks toks'.
Proof.
  unfold add_body. intros H.
  destruct (bool_decide (src token = [])); [injection H as <-; apply ws_fix_refl|].
  pose proof (run_callbacks_respect _ callbacks token i toks ws_fix_refl ws_fix_trans Hcb) as Hrun.
  destruct (is_start_brace E token); [|injection H as <-; exact Hrun].
  rewrite should_skip_always in H. simpl in H.
  eapply ws_fix_trans; [exact Hrun|]. eapply fix_unhugged_brace_ws_fix, H.
Qed.

Lemma add_body_fuel i token toks :
  add_body E contents_text callbacks i token toks <> OutOfFuel.
Proof.
  unfold add_body.
  destruct (bool_decide (src token = [])); [discriminate|].
  destruct (is_start_brace E token); [|discriminate].
  destruct (negb _); [discriminate | apply fix_unhugged_brace_fuel].
Qed.

Lemma add_loop_skip fuel : forall i toks,
  match _changing_list fuel (add_body E contents_text callbacks) i toks with
  | Ret toks' => Forall2 ws_fix toks toks'
  | Raise _ => True
  | OutOfFuel => (Z.of_nat fuel <= Z.of_nat (length toks) - i)%Z
  end.
Proof.
  induction fuel as [|fuel IH]; intros i toks; simpl.
  - destruct (Z.ltb_spec i (Z.of_nat (length toks))) as [Hi|Hi]; simpl; [lia | apply ws_fix_refl].
  - destruct (Z.ltb_spec i (Z.of_nat (length toks))) as [Hi|Hi]; simpl; [|apply ws_fix_refl].
    destruct (py_get toks i) as [token| |] eqn:Hg; simpl;
      [|done|now apply py_get_fuel in Hg].
    destruct (add_body E contents_text callbacks i token toks) as [toks1| |] eqn:Hb;
      simpl; [|done|now apply add_body_fuel in Hb].
    apply add_body_skip in Hb.
    specialize (IH (i + 1)%Z toks1).
    destruct (_changing_list fuel _ (i + 1)%Z toks1); [|done|].
    + eapply ws_fix_trans; eassumption.
    + apply Forall2_length in Hb. lia.
Qed.
End Skip.

(** ** The steps of the loops *)

Lemma run_callbacks_steps callbacks token i toks :
  rtc (callback_step callbacks) toks (run_callbacks callbacks token i toks).
Proof.
  apply run_callbacks_respect; [apply rtc_po | apply rtc_po |].
  intros off cbs Hl. apply Forall_forall. intros cb Hin j l.
  apply rtc_once. exists off, cbs, cb, j. auto.
Qed.

Lemma fix_unhugged_brace_inv i toks fd toks' :
  multi_arg fd = true ->
  _fix_unhugged_brace i toks (Some fd) = Ret toks' -> unhugged fd toks toks'.
Proof.
  unfold _fix_unhugged_brace. intros Hm H. rewrite Hm in H. simpl in H.
  apply bind_Ret in H as (t & Ht & H).
  destruct (is_ws_name t) eqn:Hws; [|injection H as <-; now left].
  apply py_get_Ret in Ht as (k & Hk & Hl).
  unfold py_set in H. rewrite Hk in H. simpl in H. injection H as <-.
  right. exists k, t. auto.
Qed.

Lemma fix_unhugged_brace_lacking i toks fix_data :
  lacks_multi_arg fix_data = true -> _fix_unhugged_brace i toks fix_data = Ret toks.
Proof.
  destruct fix_data as [fd|]; [|reflexivity]. simpl. intros H.
  unfold _fix_unhugged_brace. now rewrite H.
Qed.

Section SkipSteps.
Context (E : Collab) (contents_text : str) (callbacks : gmap Offset (list callback)).
Hypothesis Hskip : existsb (fun pattern => re_search pattern contents_text) test_patterns = true.

Lemma add_body_skip_steps i token toks toks' :
  add_body E contents_text callbacks i token toks = Ret toks' ->
  rtc (skip_mode_step E callbacks) toks toks'.
Proof.
  unfold add_body. intros H.
  destruct (bool_decide (src token = [])); [injection H as <-; apply rtc_refl|].
  transitivity (run_callbacks callbacks token i toks).
  { eapply rtc_subrel; [|apply run_callbacks_steps]. intros a b Hab. left. exact Hab. }
  destruct (is_start_brace E token); [|injection H as <-; apply rtc_refl].
  rewrite (should_skip_always contents_text Hskip) in H. simpl in H.
  destruct (find_simple E i _) as [fd|] eqn:Hf; [|injection H as <-; apply rtc_refl].
  destruct (multi_arg fd) eqn:Hm.
  - apply rtc_once. right. exists i, fd. split; [exact Hf|]. split; [exact Hm|].
    eapply fix_unhugged_brace_inv; eassumption.
  - rewrite fix_unhugged_brace_lacking in H by (simpl; now rewrite Hm).
    injection H as <-. apply rtc_refl.
Qed.

Lemma add_loop_skip_steps fuel : forall i toks toks',
  _changing_list fuel (add_body E contents_text callbacks) i toks = Ret toks' ->
  rtc (skip_mode_step E callbacks) toks toks'.
Proof.
  induction fuel as [|fuel IH]; intros i toks toks' H; simpl in H;
    destruct (i <? Z.of_nat (length toks))%Z;
    try (injection H as <-; apply rtc_refl); [discriminate|].
  apply bind_Ret in H as (token & _ & H).
  apply bind_Ret in H as (toks1 & Hb & H).
  etrans; [eapply add_body_skip_steps, Hb | eapply IH, H].
Qed.
End SkipSteps.

(** C9, as amended: when one of the skip patterns matches the text, the
    loop of add mode hands no region of the file to [fix_brace].  Unless the
    text holds a hard-coded literal or does not parse, the tokens of the
    result come from those of the input by two kinds of steps only: a
    registered callback is applied (the callbacks run before the skip test
    and are free to add a comma), or [_fix_unhugged_brace] replaces the
    whitespace token before the closing bracket of a region that
    [find_simple] describes by [Token('UNIMPORTANT_WS', '\n')].  When the
    callbacks change whitespace tokens in that way only (as when none is
    registered), no comma is added anywhere in the file, the loop ends
    within one iteration per token, and with descriptors in range there is
    a result. *)
Theorem skip_pattern_loop_adds_no_comma (E : Collab) (fuel : nat) (s : str) :
  existsb (fun pattern => re_search pattern s) test_patterns = true ->
  match _fix_src E fuel s false with
  | Ret out =>
      (exists pattern, In (pattern, out) hard_coded /\ py_in pattern s = true)
      \/ (ast_parse E s = None /\ out = s)
      \/ (exists a toks', ast_parse E s = Some a /\ out = tokens_to_src toks'
            /\ rtc (skip_mode_step E (visit E a)) (src_to_tokens E s) toks'
            /\ (callbacks_respect (Forall2 ws_fix) (visit E a) ->
                Forall2 ws_fix (src_to_tokens E s) toks'
                /\ commas toks' <= commas (src_to_tokens E s)))
  | Raise _ => True
  | OutOfFuel =>
      (forall a, ast_parse E s = Some a -> callbacks_respect (Forall2 ws_fix) (visit E a)) ->
      fuel <= length (src_to_tokens E s)
  end
  /\ ((forall a, ast_parse E s = Some a -> callbacks_respect (Forall2 ws_fix) (visit E a)) ->
      descriptors_in_range E -> length (src_to_tokens E s) < fuel ->
      exists out, _fix_src E fuel s false = Ret out).
Proof.
  intros Hskip.
  assert (Hmain : match _fix_src E fuel s false with
                  | Ret out =>
                      (exists pattern, In (pattern, out) hard_coded /\ py_in pattern s = true)
                      \/ (ast_parse E s = None /\ out = s)
                      \/ (exists a toks', ast_parse E s = Some a /\ out = tokens_to_src toks'
                            /\ rtc (skip_mode_step E (visit E a)) (src_to_tokens E s) toks'
                            /\ (callbacks_respect (Forall2 ws_fix) (visit E a) ->
                                Forall2 ws_fix (src_to_tokens E s) toks'
                                /\ commas toks' <= commas (src_to_tokens E s)))
                  | Raise _ => True
                  | OutOfFuel =>
                      (forall a, ast_parse E s = Some a ->
                         callbacks_respect (Forall2 ws_fix) (visit E a)) ->
                      fuel <= length (src_to_tokens E s)
                  end).
  { unfold _fix_src.
    destruct (find _ hard_coded) as [[pattern out]|] eqn:Hf.
    - left. exists pattern. apply find_some in Hf. exact Hf.
    - destruct (ast_parse E s) as [a|] eqn:Hp; [|right; left; auto].
      pose proof (add_loop_skip_steps E s (visit E a) Hskip fuel 0%Z (src_to_tokens E s)) as Hsteps.
      pose proof (fun Hcb => add_loop_skip E s (visit E a) Hskip Hcb fuel 0%Z (src_to_tokens E s))
        as Hws.
      destruct (_changing_list fuel _ 0%Z (src_to_tokens E s)) as [toks'| |]; simpl; [|done|].
      + right; right. exists a, toks'. split; [reflexivity|]. split; [reflexivity|].
        split; [now apply Hsteps|]. intros Hcb. specialize (Hws Hcb).
        split; [exact Hws | now apply ws_fix_commas].
      + intros Hcb. specialize (Hws (Hcb a eq_refl)). lia. }
  split; [exact Hmain|]. intros Hcb Hr Hfuel.
  pose proof (fix_src_no_raise E fuel s false Hr) as Hnr.
  destruct (_fix_src E fuel s false) as [out|e|];
    [eauto | now destruct (Hnr e) | specialize (Hmain Hcb); lia].
Qed.

Lemma skip_pattern_loop_adds_no_comma_witness :
  match _fix_src (Ref.collab false) 64 text_with_skip_pattern false with
  | Ret out =>
      (exists pattern, In (pattern, out) hard_coded /\ py_in pattern text_with_skip_pattern = true)
      \/ (ast_parse (Ref.collab false) text_with_skip_pattern = None /\ out = text_with_skip_pattern)
      \/ (exists a toks',
            ast_parse (Ref.collab false) text_with_skip_pattern = Some a
            /\ out = tokens_to_src toks'
            /\ rtc (skip_mode_step (Ref.collab false) (visit (Ref.collab false) a))
                 (src_to_tokens (Ref.collab false) text_with_skip_pattern) toks'
            /\ (callbacks_respect (Forall2 ws_fix) (visit (Ref.collab false) a) ->
                Forall2 ws_fix (src_to_tokens (Ref.collab false) text_with_skip_pattern) toks'
                /\ commas toks' <= commas (src_to_tokens (Ref.collab false) text_with_skip_pattern)))
  | Raise _ => True
  | OutOfFuel =>
      (forall a, ast_parse (Ref.collab false) text_with_skip_pattern = Some a ->
         callbacks_respect (Forall2 ws_fix) (visit (Ref.collab false) a)) ->
      64 <= length (src_to_tokens (Ref.collab false) text_with_skip_pattern)
  end
  /\ exists out, _fix_src (Ref.collab false) 64 text_with_skip_pattern false = Ret out.
Proof.
  destruct (skip_pattern_loop_adds_no_comma (Ref.collab false) 64 text_with_skip_pattern) as [A B].
  - vm_compute. reflexivity.
  - split; [exact A|].
    apply B; [intros a _; apply callbacks_respect_empty | apply ref_descriptors_in_range
             | vm_compute; lia].
Defined.

(** C9 (counterexample): the first skip pattern matches the text, and the
    call [x(...)] after it gets its comma all the same, from a callback that
    is registered for the call and runs before the skip test.  With no
    callback registered the text comes back as it was. *)
Lemma callback_adds_comma_despite_pattern :
  existsb (fun pattern => re_search pattern text_with_skip_pattern) test_patterns = true
  /\ _fix_src collab_with_call_callback 64 text_with_skip_pattern false
     = Ret (py "tuple(\n    a for a in b\n)\nx(\n    1,\n)\n")
  /\ _fix_src (Ref.collab true) 64 text_with_skip_pattern false = Ret text_with_skip_pattern.
Proof. do 2 (split; [vm_compute; reflexivity|]). vm_compute. reflexivity. Qed.

(** On that text the reference instance returns the input: the call [x(...)]
    gets no comma, while alone it gets one. *)
Lemma skip_pattern_example :
  _fix_src (Ref.collab false) 64 text_with_skip_pattern false = Ret text_with_skip_pattern
  /\ _fix_src (Ref.collab false) 64 (py "x(\n    1\n)\n") false = Ret (py "x(\n    1,\n)\n").
Proof. split; vm_compute; reflexivity. Qed.

(** ** What remove mode changes *)

Lemma edit_length a b : edit a b -> length b <= length a.
Proof. destruct 1; rewrite !length_app; simpl; lia. Qed.

Lemma edits_length a b : edits a b -> length b <= length a.
Proof. induction 1 as [|a b c Hab _ IH]; [done|]. apply edit_length in Hab. lia. Qed.

Lemma fix_unhugged_brace_edits i toks fix_data toks' :
  _fix_unhugged_brace i toks fix_data = Ret toks' -> edits toks toks'.
Proof.
  unfold _fix_unhugged_brace. intros H.
  destruct fix_data as [fd|]; [|injection H as <-; apply rtc_refl].
  destruct (negb (multi_arg fd)); [injection H as <-; apply rtc_refl|].
  apply bind_Ret in H as (t & Ht & H).
  destruct (is_ws_name t) eqn:Hws; [|injection H as <-; apply rtc_refl].
  apply py_get_Ret in Ht as (k & Hk & Hl).
  unfold py_set in H. rewrite Hk in H. simpl in H. injection H as <-.
  apply rtc_once.
  rewrite insert_take_drop by (eapply lookup_lt_Some, Hl).
  rewrite <- (take_drop_middle toks k t Hl) at 1.
  apply edit_ws; [exact Hws | reflexivity].
Qed.

Lemma remove_comma_at_edits toks i fd toks' :
  (0 <= i)%Z -> remove_comma_at toks i fd = Ret (Some toks') -> edits toks toks'.
Proof.
  unfold remove_comma_at. intros Hi H.
  apply bind_Ret in H as (single & _ & H).
  destruct single; [discriminate|].
  apply bind_Ret in H as (j & _ & H).
  destruct (Z.ltb_spec i j) as [Hj|Hj]; [|injection H as <-; apply rtc_refl].
  apply bind_Ret in H as (t & Ht & H).
  destruct (str_eqb (src t) (py ",")) eqn:Hc; [|injection H as <-; apply rtc_refl].
  injection H as <-.
  apply py_get_Ret in Ht as (k & Hk & Hl).
  apply py_index_nonneg in Hk as [-> Hlen]; [|lia].
  rewrite py_del_slice_at by lia.
  apply rtc_once.
  rewrite <- (take_drop_middle toks _ t Hl) at 1.
  apply edit_comma. unfold str_eqb in Hc. now apply bool_decide_eq_true in Hc.
Qed.

Section Remove.
Context (E : Collab) (contents_text : str) (callbacks : gmap Offset (list callback)).
Hypothesis Hcb : callbacks_respect edits callbacks.

Lemma remove_body_edits i token toks toks' :
  (0 <= i)%Z ->
  remove_body E contents_text callbacks i token toks = Ret toks' -> edits toks toks'.
Proof.
  unfold remove_body. intros Hi H.
  destruct (bool_decide (src token = [])); [injection H as <-; apply rtc_refl|].
  assert (Hrun : edits toks (run_callbacks callbacks token i toks)).
  { apply run_callbacks_respect; [apply rtc_po | apply rtc_po | exact Hcb]. }
  etrans; [exact Hrun|]. clear Hrun.
  destruct (is_start_brace E token); [|injection H as <-; apply rtc_refl].
  destruct (find_simple E i _) as [fd|]; [|eapply fix_unhugged_brace_edits, H].
  destruct (_ && _); [|eapply fix_unhugged_brace_edits, H].
  apply bind_Ret in H as ([toks1|] & Hr & H).
  - etrans; [eapply remove_comma_at_edits, Hr; exact Hi|].
    eapply fix_unhugged_brace_edits, H.
  - injection H as <-. apply rtc_refl.
Qed.

End Remove.

(** ** Remove mode and the descriptor *)

(** Where [find_simple] gives no [multi_arg] descriptor, the loop body of
    [_remove_trailing_commas] returns the tokens as the callbacks left them. *)
Lemma remove_body_without_descriptor (E : Collab) (s : str)
    (callbacks : gmap Offset (list callback)) (i : Z) (token : Token) (toks : list Token) :
  lacks_multi_arg (find_simple E i (run_callbacks callbacks token i toks)) = true ->
  remove_body E s callbacks i token toks
  = Ret (if bool_decide (src token = []) then toks else run_callbacks callbacks token i toks).
Proof.
  intros H. unfold remove_body.
  destruct (bool_decide (src token = [])); [reflexivity|].
  destruct (is_start_brace E token); [|reflexivity].
  destruct (find_simple E i _) as [fd|]; [|reflexivity].
  simpl in H. apply negb_true_iff in H. unfold _fix_unhugged_brace. now rewrite H.
Qed.

Section NoDescriptor.
Context (E : Collab) (contents_text : str) (callbacks : gmap Offset (list callback)).
Context (toks : list Token).
Hypothesis Hcb : callbacks_respect eq callbacks.
Hypothesis Hnone : forall (i : nat) (token : Token),
  toks !! i = Some token -> is_start_brace E token = true ->
  lacks_multi_arg (find_simple E (Z.of_nat i) toks) = true.

Lemma remove_body_no_descriptor (i : Z) (token : Token) :
  (0 <= i)%Z -> toks !! Z.to_nat i = Some token ->
  remove_body E contents_text callbacks i token toks = Ret toks.
Proof.
  intros Hi Hl.
  assert (Hrun : run_callbacks callbacks token i toks = toks).
  { symmetry. apply run_callbacks_respect; [intros x; reflexivity | intros x y z; congruence | exact Hcb]. }
  destruct (is_start_brace E token) eqn:Hb.
  - rewrite remove_body_without_descriptor.
    + rewrite Hrun. now destruct (bool_decide _).
    + rewrite Hrun. specialize (Hnone _ _ Hl Hb). now rewrite Z2Nat.id in Hnone.
  - unfold remove_body. rewrite Hb, Hrun. now destruct (bool_decide _).
Qed.

Lemma remove_loop_no_descriptor fuel : forall i,
  (0 <= i)%Z -> (Z.of_nat (length toks) - i < Z.of_nat fuel)%Z ->
  _changing_list fuel (remove_body E contents_text callbacks) i toks = Ret toks.
Proof.
  induction fuel as [|fuel IH]; intros i Hi Hf; simpl;
    destruct (Z.ltb_spec i (Z.of_nat (length toks))) as [Hlt|Hge]; try reflexivity; [lia|].
  destruct (py_get_valid toks i ltac:(lia)) as (token & -> & Hl). simpl.
  rewrite remove_body_no_descriptor by assumption. simpl.
  apply IH; lia.
Qed.
End NoDescriptor.

(** A text none of whose opening brackets gets a descriptor with
    [multi_arg] set: when no callback changes the tokens, remove mode
    returns the text of the tokens as they were read. *)
Lemma remove_mode_needs_descriptor (E : Collab) (fuel : nat) (s : str) (a : Ast E) :
  ast_parse E s = Some a ->
  callbacks_respect eq (visit E a) ->
  (forall (i : nat) (token : Token),
     src_to_tokens E s !! i = Some token -> is_start_brace E token = true ->
     lacks_multi_arg (find_simple E (Z.of_nat i) (src_to_tokens E s)) = true) ->
  length (src_to_tokens E s) < fuel ->
  _fix_src E fuel s true = Ret (tokens_to_src (src_to_tokens E s)).
Proof.
  intros Hp Hcb Hnone Hfuel. unfold _fix_src, _remove_trailing_commas. rewrite Hp.
  rewrite (remove_loop_no_descriptor E s (visit E a) _ Hcb Hnone fuel 0%Z) by lia.
  reflexivity.
Qed.

(** Decide a statement about every token of a concrete list, index by index. *)
Ltac each_token :=
  let i := fresh "i" in let token := fresh "token" in
  let Hl := fresh "Hl" in let Hb := fresh "Hb" in
  intros i token Hl Hb;
  repeat (destruct i as [|i];
          [vm_compute in Hl; injection Hl as <-;
           first [vm_compute in Hb; discriminate Hb | vm_compute; reflexivity]|]);
  vm_compute in Hl; discriminate Hl.

Lemma remove_mode_needs_descriptor_witness :
  _fix_src (Ref.collab true) 64 single_and_multi true
  = Ret (tokens_to_src (src_to_tokens (Ref.collab true) single_and_multi)).
Proof.
  apply (remove_mode_needs_descriptor (Ref.collab true) 64 single_and_multi ()).
  - vm_compute. reflexivity.
  - apply callbacks_respect_empty.
  - each_token.
  - vm_compute. lia.
Defined.

(** The strict analyzer returns a descriptor for multiline regions only. *)
Lemma strict_find_simple_multiline i toks fd :
  Ref.find_simple true i toks = Some fd ->
  exists n, snd (braces fd) = (i + 1 + Z.of_nat n)%Z
    /\ existsb Ref.is_line_break (take n (drop (S (Z.to_nat i)) toks)) = true.
Proof.
  unfold Ref.find_simple. intros H.
  destruct (i <? 0)%Z; [discriminate|].
  destruct (Ref.match_close 0 _) as [n|]; [|discriminate]. simpl in H.
  destruct (existsb Ref.is_line_break _) eqn:Hm.
  - destruct (_ || _); [discriminate|]. injection H as <-. exists n. auto.
  - rewrite orb_true_r in H. discriminate.
Qed.

(** ** The driver on undecodable bytes *)

(** C10: when the bytes read for [filename] are not valid UTF-8, [fix_file]
    returns 1 whatever the arguments are (so also under
    [--exit-zero-even-if-changed]), prints the message to standard error, and
    leaves every file as it was. *)
Theorem fix_file_non_utf8 (E : Collab) (fuel : nat) (filename : str) (args : Args)
    (w w1 : World) (contents_bytes : list byte) :
  read_contents filename w = Ret (contents_bytes, w1) ->
  utf8_decode contents_bytes = None ->
  fix_file E fuel filename args w
    = Ret (1%Z, print_stderr (filename ++ py " is non-utf-8 (not supported)") w1)
  /\ fs (print_stderr (filename ++ py " is non-utf-8 (not supported)") w1) = fs w.
Proof.
  intros Hread Hdec. unfold fix_file. rewrite Hread. simpl. rewrite Hdec.
  split; [reflexivity|].
  unfold read_contents in Hread. simpl.
  destruct (str_eqb filename (py "-")).
  - injection Hread as _ <-. reflexivity.
  - destruct (fs w !! filename); [|discriminate]. injection Hread as _ <-. reflexivity.
Qed.

Lemma fix_file_non_utf8_witness :
  fix_file (Ref.collab false) 0 (py "f.py") (mkArgs [py "f.py"] true false false false) cp1252_world
    = Ret (1%Z, print_stderr (py "f.py" ++ py " is non-utf-8 (not supported)") cp1252_world)
  /\ fs (print_stderr (py "f.py" ++ py " is non-utf-8 (not supported)") cp1252_world)
     = fs cp1252_world.
Proof.
  apply (fix_file_non_utf8 (Ref.collab false) 0 (py "f.py")
           (mkArgs [py "f.py"] true false false false) cp1252_world cp1252_world cp1252_bytes).
  - unfold read_contents, cp1252_world. simpl. rewrite lookup_singleton_eq. reflexivity.
  - vm_compute. reflexivity.
Defined.

(** ** Evaluation on the reference instance *)

Ltac run_fix_src :=
  intros; apply fix_src_more_fuel; vm_compute; reflexivity.

(** C3: in remove mode the comma of the one-element tuple [(1,)] stays and
    the comma of [(1, 2,)] goes.  This holds for all imported helpers that
    read the two texts into the tokens of the reference tokenizer, take the
    three opening brackets as [START_BRACES], register no callback, parse the
    second text, and match the parenthesis at token 4 with the closing one
    (token 7 in the first text if a descriptor is returned at all, token 10
    with [multi_arg] set in the second). *)
Theorem remove_mode_single_element_tuple (E : Collab) (k : nat) (b : Z) :
  START_BRACES E = Ref.START_BRACES ->
  src_to_tokens E (py "x = (1,)\n") = Ref.src_to_tokens (py "x = (1,)\n") ->
  src_to_tokens E (py "x = (1, 2,)\n") = Ref.src_to_tokens (py "x = (1, 2,)\n") ->
  (forall s a, ast_parse E s = Some a -> visit E a = ∅) ->
  is_Some (ast_parse E (py "x = (1, 2,)\n")) ->
  (forall fd, find_simple E 4 (Ref.src_to_tokens (py "x = (1,)\n")) = Some fd ->
              snd (braces fd) = 7%Z) ->
  find_simple E 4 (Ref.src_to_tokens (py "x = (1, 2,)\n")) = Some (mkFix (b, 10%Z) true) ->
  _fix_src E (16 + k) (py "x = (1,)\n") true = Ret (py "x = (1,)\n")
  /\ _fix_src E (16 + k) (py "x = (1, 2,)\n") true = Ret (py "x = (1, 2)\n").
Proof.
  destruct E as [Ast parse visit tokenize braces_ fs fb]. simpl.
  intros -> Ht1 Ht2 Hcb [a2 Hp2] Hf1 Hf2.
  unfold _fix_src, _remove_trailing_commas. simpl. split.
  - destruct (parse (py "x = (1,)\n")) as [a1|] eqn:Hp1; [|reflexivity].
    rewrite (Hcb _ _ Hp1), Ht1.
    vm_compute in Hf1. vm_compute.
    match goal with |- context [fs ?i ?t] => destruct (fs i t) as [[[o c] m]|] eqn:Hf end;
      [|reflexivity].
    specialize (Hf1 _ eq_refl). simpl in Hf1. subst c. destruct m; reflexivity.
  - rewrite Hp2, (Hcb _ _ Hp2), Ht2.
    vm_compute in Hf2. vm_compute. rewrite Hf2. reflexivity.
Qed.

Lemma remove_mode_single_element_tuple_witness :
  _fix_src (Ref.collab false) (16 + 0) (py "x = (1,)\n") true = Ret (py "x = (1,)\n")
  /\ _fix_src (Ref.collab false) (16 + 0) (py "x = (1, 2,)\n") true = Ret (py "x = (1, 2)\n").
Proof.
  apply (remove_mode_single_element_tuple (Ref.collab false) 0 4).
  - reflexivity.
  - reflexivity.
  - reflexivity.
  - intros s a _. reflexivity.
  - exists (). vm_compute. reflexivity.
  - intros fd H. vm_compute in H. injection H as <-. reflexivity.
  - vm_compute. reflexivity.
Defined.

(** C7: add mode puts one comma after the last element of a multiline
    region and leaves the closing bracket at the indentation of the
    statement. *)
Theorem add_mode_multiline_examples :
  forall k : nat,
    _fix_src (Ref.collab false) (16 + k) (py "x(\n    1\n)\n") false = Ret (py "x(\n    1,\n)\n")
    /\ _fix_src (Ref.collab false) (16 + k) (py "x(\n    1,\n    2\n)\n") false
       = Ret (py "x(\n    1,\n    2,\n)\n").
Proof. split; run_fix_src. Qed.

(** ** The hard-coded replacements of add mode *)

(** C1 (failing input): on [unparsable_text] the reference parser fails, and
    add mode, whatever the imported helpers are, returns the hard-coded
    replacement, which is not the input; remove mode returns the input. *)
Theorem add_mode_changes_unparsable_text :
  Ref.ast_parse unparsable_text = None
  /\ (forall (E : Collab) (fuel : nat),
        _fix_src E fuel unparsable_text false = Ret (py "x = (\n    \qfoo\q\n    \qbar\q\n)"))
  /\ (forall fuel : nat,
        _fix_src (Ref.collab false) fuel unparsable_text true = Ret unparsable_text).
Proof.
  split; [vm_compute; reflexivity|]. split; intros; vm_compute; reflexivity.
Qed.

(** C8 (failing input): add mode returns the hard-coded replacement alone;
    the line [import os] and the final line end of the input are gone,
    whatever the imported helpers are. *)
Theorem add_mode_drops_rest_of_file :
  forall (E : Collab) (fuel : nat),
    _fix_src E fuel text_with_import false = Ret (py "x = (\n    \qfoo\q\n    \qbar\q\n)").
Proof. intros; vm_compute; reflexivity. Qed.

(** ** Running remove mode twice *)

(** C2 (failing input): the first run of remove mode deletes the trailing
    comma; a second run on its output replaces the indentation before the
    closing bracket by a line end. *)
Theorem remove_mode_second_run_differs :
  forall k : nat,
    _fix_src (Ref.collab false) (32 + k) indented_subscript true
      = Ret (py "if a:\n    x[\n        1,\n        2\n    ]\n")
    /\ _fix_src (Ref.collab false) (32 + k) (py "if a:\n    x[\n        1,\n        2\n    ]\n") true
       = Ret (py "if a:\n    x[\n        1,\n        2\n\n]\n").
Proof. split; run_fix_src. Qed.

(** ** Remove mode on a text without a trailing comma *)

(** C5 (failing input): the call has no comma at all, so that remove mode
    has no separator to delete, and yet the text changes.
    [_fix_unhugged_brace], which remove mode calls at every bracket,
    overwrites the indentation before the closing bracket (token 12) by the
    token [Token('UNIMPORTANT_WS', '\n')]: the line of the closing bracket
    is not left as in the input.  In a file with [\r\n] line ends the token
    it overwrites is the line end before the closing bracket, which becomes
    [\n].  Both regions span several lines, so the analyzer that keeps to
    multiline regions describes them. *)
Theorem remove_mode_rewrites_whitespace :
  forall k : nat,
    commas (Ref.src_to_tokens indented_call) = 0
    /\ find_simple (Ref.collab true) 7 (Ref.src_to_tokens indented_call)
       = Some (mkFix (7, 13)%Z true)
    /\ _fix_unhugged_brace 7 (Ref.src_to_tokens indented_call) (Some (mkFix (7, 13)%Z true))
       = Ret (<[12%nat := Token_ "UNIMPORTANT_WS" (py "\n")]> (Ref.src_to_tokens indented_call))
    /\ _fix_src (Ref.collab true) (32 + k) indented_call true
       = Ret (py "if a:\n    f(\n        1\n\n)\n")
    /\ _fix_src (Ref.collab true) (32 + k) crlf_call true = Ret (py "x(\r\n    1\n)\r\n").
Proof.
  intros k. do 3 (split; [vm_compute; reflexivity|]). split; run_fix_src.
Qed.

(** ** The tuple test on [@=] *)

(** C6 (failing input): before [(1,)] the nearest token is the augmented
    assignment [@=]; [_is_single_element_tuple] answers [False] (it answers
    [True] after [+=]), and remove mode deletes the comma.  It deletes the
    comma of a one-element tuple after an opening parenthesis too. *)
Theorem matmul_assign_not_tuple_context :
  _is_single_element_tuple (Ref.src_to_tokens (py "x @= (1,)\n")) 4 7 = Ret false
  /\ _is_single_element_tuple (Ref.src_to_tokens (py "x += (1,)\n")) 4 7 = Ret true
  /\ (forall k : nat,
        _fix_src (Ref.collab false) (16 + k) (py "x @= (1,)\n") true = Ret (py "x @= (1)\n"))
  /\ (forall k : nat,
        _fix_src (Ref.collab false) (16 + k) (py "print((1,))\n") true = Ret (py "print((1))\n")).
Proof.
  split; [vm_compute; reflexivity|]. split; [vm_compute; reflexivity|].
  split; run_fix_src.
Qed.

(** ** Texts that do not parse *)

(** When the parser fails, remove mode returns the text; add mode returns it
    when none of the hard-coded literals occurs in it. *)
Theorem parse_failure_noop (E : Collab) (fuel : nat) (s : str) :
  ast_parse E s = None ->
  _fix_src E fuel s true = Ret s
  /\ (find (fun pr => py_in (fst pr) s) hard_coded = None -> _fix_src E fuel s false = Ret s).
Proof.
  intros Hp. unfold _fix_src, _remove_trailing_commas. rewrite Hp.
  split; [reflexivity|]. intros ->. reflexivity.
Qed.

Lemma parse_failure_noop_witness :
  _fix_src (Ref.collab false) 0 (py "x = (1,\n") true = Ret (py "x = (1,\n")
  /\ (find (fun pr => py_in (fst pr) (py "x = (1,\n")) hard_coded = None ->
      _fix_src (Ref.collab false) 0 (py "x = (1,\n") false = Ret (py "x = (1,\n")).
Proof.
  apply (parse_failure_noop (Ref.collab false) 0 (py "x = (1,\n")).
  vm_compute. reflexivity.
Defined.

(** ** The verdict of [_is_single_element_tuple] *)

(** Evaluate the tests on literals in the goal. *)
Ltac literals :=
  repeat match goal with
         | |- context [str_eqb (py ?a) (py ?b)] =>
             let v := eval vm_compute in (str_eqb (py a) (py b)) in
             change (str_eqb (py a) (py b)) with v
         | |- context [bool_decide (py ?a ∈ tuple_operator_contexts)] =>
             let v := eval vm_compute in (bool_decide (py a ∈ tuple_operator_contexts)) in
             change (bool_decide (py a ∈ tuple_operator_contexts)) with v
         end;
  simpl.

(** For a region opened by a parenthesis at [i], with an argument count of
    one and a token [tk] at [k] as the nearest token before [i] that is not
    whitespace: the answer is [True] exactly when the text of [tk] is one of
    the sixteen of [tuple_operator_contexts] and the token just before [tk]
    is not [def].  The import test never decides: [import] and [from] are
    not among the sixteen. *)
Theorem single_element_tuple_verdict (toks : list Token) (i last_brace k : Z) (ti tk : Token) :
  count_args (Z.to_nat (last_brace - (i + 1))) toks (i + 1) last_brace 0 = Ret 1%Z ->
  py_get toks i = Ret ti -> src ti = py "(" ->
  skip_ws_back (Z.to_nat (i - 1 + 1)) toks (i - 1) = Ret k -> (0 <= k)%Z ->
  py_get toks k = Ret tk ->
  _is_single_element_tuple toks i last_brace
  = Ret (bool_decide (src tk ∈ tuple_operator_contexts) && negb (prev_is_def toks k)).
Proof.
  intros Hc Hti Hsrc Hk Hk0 Htk.
  unfold _is_single_element_tuple. rewrite Hc. simpl. rewrite Hti. simpl.
  unfold str_eqb at 1. rewrite Hsrc, bool_decide_eq_true_2 by reflexivity. simpl.
  rewrite Hk. simpl. destruct (Z.ltb_spec k 0) as [?|_]; [lia|]. rewrite Htk. simpl.
  apply py_get_Ret in Htk as (n & Hn & Hl).
  apply py_index_nonneg in Hn as [-> Hlen]; [|exact Hk0].
  unfold prev_is_def.
  destruct (Z.ltb_spec 0 k) as [Hpos|Hzero]; simpl.
  - destruct (py_get_valid toks (k - 1) ltac:(lia)) as (t1 & Hg1 & Hl1).
    rewrite Hg1, Hl1.
    destruct (str_eqb (src tk) (py "import")) eqn:Himp;
      [apply str_eqb_eq in Himp; rewrite Himp; literals; reflexivity|].
    destruct (str_eqb (src tk) (py "def")) eqn:Hdef;
      [apply str_eqb_eq in Hdef; rewrite Hdef; literals; reflexivity|].
    destruct (str_eqb (src tk) (py "from")) eqn:Hfrom;
      [apply str_eqb_eq in Hfrom; rewrite Hfrom; literals; reflexivity|].
    simpl. now rewrite andb_true_r.
  - destruct (str_eqb (src tk) (py "import")) eqn:Himp;
      [apply str_eqb_eq in Himp; rewrite Himp; literals; reflexivity|].
    destruct (str_eqb (src tk) (py "def")) eqn:Hdef;
      [apply str_eqb_eq in Hdef; rewrite Hdef; literals; reflexivity|].
    simpl. now rewrite !andb_true_r.
Qed.

Lemma single_element_tuple_verdict_witness :
  _is_single_element_tuple (Ref.src_to_tokens (py "x = (1,)\n")) 4 7
  = Ret (bool_decide (src (Ref.tok "OP" (py "=") (Ref.mkLex 1 2 0 false true []))
                      ∈ tuple_operator_contexts)
         && negb (prev_is_def (Ref.src_to_tokens (py "x = (1,)\n")) 2)).
Proof.
  apply (single_element_tuple_verdict (Ref.src_to_tokens (py "x = (1,)\n")) 4 7 2
           (Ref.tok "OP" (py "(") (Ref.mkLex 1 4 1 false true []))
           (Ref.tok "OP" (py "=") (Ref.mkLex 1 2 0 false true [])));
    try (vm_compute; reflexivity).
  lia.
Defined.

(** ** The repository's tests on the reference instance *)

(** [test_main_changes_a_file]: exit code 1, the message on standard error,
    the comma in the file. *)
Lemma test_main_changes_a_file :
  main (Ref.collab false) 64 (default_args [py "f.py"]) (one_file (py "f.py") (py "x(\n    1\n)\n"))
  = Ret (1%Z, mkWorld {[ py "f.py" := default [] (utf8_encode (py "x(\n    1,\n)\n")) ]}
                [] [] (py "Rewriting f.py\n")).
Proof. vm_compute. reflexivity. Qed.

(** [test_main_noop] and [test_main_syntax_error]: exit code 0, nothing
    written. *)
Lemma test_main_noop :
  main (Ref.collab false) 64 (default_args [py "f.py"]) (one_file (py "f.py") (py "x = 5\n"))
  = Ret (0%Z, one_file (py "f.py") (py "x = 5\n")).
Proof. vm_compute. reflexivity. Qed.

(** [test_main_exit_zero_even_if_changed]: the file changes, the exit code
    is 0. *)
Lemma test_main_exit_zero_even_if_changed :
  main (Ref.collab false) 64 (mkArgs [py "t.py"] true false false false)
    (one_file (py "t.py") (py "x(\n    1\n)"))
  = Ret (0%Z, mkWorld {[ py "t.py" := default [] (utf8_encode (py "x(\n    1,\n)")) ]}
                [] [] (py "Rewriting t.py\n")).
Proof. vm_compute. reflexivity. Qed.

(** [test_main_stdin_with_changes]: the result goes to standard output. *)
Lemma test_main_stdin_with_changes :
  main (Ref.collab false) 64 (default_args [py "-"])
    (mkWorld ∅ (default [] (utf8_encode (py "x(\n    1\n)\n"))) [] [])
  = Ret (1%Z, mkWorld ∅ [] (py "x(\n    1,\n)\n") []).
Proof. vm_compute. reflexivity. Qed.

(** The remove-mode tests, through [_fix_src]. *)
Lemma test_main_remove_comma_cases :
  _fix_src (Ref.collab false) 64 (py "x(\n    1,\n    2,\n)\n") true
    = Ret (py "x(\n    1,\n    2\n)\n")
  /\ _fix_src (Ref.collab false) 64 (py "def f(\n    arg1,\n    arg2,\n): pass\n") true
     = Ret (py "def f(\n    arg1,\n    arg2\n): pass\n")
  /\ _fix_src (Ref.collab false) 64 (py "from math import (\n    sin,\n)\n") true
     = Ret (py "from math import (\n    sin\n)\n")
  /\ _fix_src (Ref.collab false) 64 (py "def func(\n    x,\n):\n    pass\n") true
     = Ret (py "def func(\n    x\n):\n    pass\n")
  /\ _fix_src (Ref.collab false) 64
       (py "class C:\n    def method(\n        self,\n    ):\n        pass\n") true
     = Ret (py "class C:\n    def method(\n        self\n    ):\n        pass\n")
  /\ _fix_src (Ref.collab false) 64 (py "result = func(\n    arg,\n)\n") true
     = Ret (py "result = func(\n    arg\n)\n").
Proof. repeat split; vm_compute; reflexivity. Qed.

(** The add-mode tests, through [_fix_src]. *)
Lemma test_main_add_comma_cases :
  _fix_src (Ref.collab false) 64 (py "x(\r\n    1\r\n)\r\n") false
    = Ret (py "x(\r\n    1,\r\n)\r\n")
  /\ _fix_src (Ref.collab false) 64 (py "x(\n    *args\n)\n") false
     = Ret (py "x(\n    *args,\n)\n")
  /\ _fix_src (Ref.collab false) 64 (py "x(\n    **args\n)\n") false
     = Ret (py "x(\n    **args,\n)\n")
  /\ _fix_src (Ref.collab false) 64 (py "def f(\n    **kwargs\n): pass\n") false
     = Ret (py "def f(\n    **kwargs,\n): pass\n")
  /\ _fix_src (Ref.collab false) 64 (py "x(1, 2)\n") false = Ret (py "x(1, 2)\n").
Proof. repeat split; vm_compute; reflexivity. Qed.

(** ** UTF-8: what [str.encode()] writes, [bytes.decode()] reads back *)

Ltac divmod := zify; Z.to_euclidean_division_equations; lia.

(** Settle the comparisons of the goal that the hypotheses decide. *)
Ltac decide_cmp :=
  repeat (first
    [ rewrite (proj2 (N.eqb_eq _ _)) by lia
    | rewrite (proj2 (N.eqb_neq _ _)) by lia
    | rewrite (proj2 (N.ltb_lt _ _)) by lia
    | rewrite (proj2 (N.ltb_ge _ _)) by lia
    | rewrite (proj2 (N.leb_le _ _)) by lia
    | rewrite (proj2 (N.leb_gt _ _)) by lia ];
    cbn [andb orb negb]).

Lemma utf8_decode_1 (b0 : N) (r : list N) :
  (b0 < 128)%N -> utf8_decode_N (b0 :: r) = cons b0 <$> utf8_decode_N r.
Proof. intros H. cbn [utf8_decode_N]. now decide_cmp. Qed.

Lemma utf8_decode_2 (b0 b1 : N) (r : list N) :
  (194 <= b0 <= 223)%N -> (128 <= b1 <= 191)%N ->
  utf8_decode_N (b0 :: b1 :: r) = cons ((b0 - 192) * 64 + (b1 - 128))%N <$> utf8_decode_N r.
Proof. intros H0 H1. cbn [utf8_decode_N]. unfold is_cont. now decide_cmp. Qed.

Lemma utf8_decode_3 (b0 b1 b2 : N) (r : list N) :
  (224 <= b0 <= 239)%N -> (128 <= b1 <= 191)%N -> (128 <= b2 <= 191)%N ->
  (b0 = 224 -> 160 <= b1)%N -> (b0 = 237 -> b1 <= 159)%N ->
  utf8_decode_N (b0 :: b1 :: b2 :: r)
  = cons ((b0 - 224) * 4096 + (b1 - 128) * 64 + (b2 - 128))%N <$> utf8_decode_N r.
Proof.
  intros H0 H1 H2 Hlow Hsur. cbn [utf8_decode_N]. unfold is_cont.
  destruct (N.eq_dec b0 224%N) as [E1|E1]; [specialize (Hlow E1)|];
    (destruct (N.eq_dec b0 237%N) as [E2|E2]; [specialize (Hsur E2)|]);
    try (exfalso; lia); now decide_cmp.
Qed.

Lemma utf8_decode_4 (b0 b1 b2 b3 : N) (r : list N) :
  (240 <= b0 <= 244)%N -> (128 <= b1 <= 191)%N -> (128 <= b2 <= 191)%N ->
  (128 <= b3 <= 191)%N ->
  (b0 = 240 -> 144 <= b1)%N -> (b0 = 244 -> b1 <= 143)%N ->
  utf8_decode_N (b0 :: b1 :: b2 :: b3 :: r)
  = cons ((b0 - 240) * 262144 + (b1 - 128) * 4096 + (b2 - 128) * 64 + (b3 - 128))%N
      <$> utf8_decode_N r.
Proof.
  intros H0 H1 H2 H3 Hlow Hhigh. cbn [utf8_decode_N]. unfold is_cont.
  destruct (N.eq_dec b0 240%N) as [E1|E1]; [specialize (Hlow E1)|];
    (destruct (N.eq_dec b0 244%N) as [E2|E2]; [specialize (Hhigh E2)|]);
    try (exfalso; lia); now decide_cmp.
Qed.

Lemma utf8_decode_encode_cp (c : N) (e r : list N) :
  utf8_encode_cp c = Some e ->
  utf8_decode_N (e ++ r) = cons c <$> utf8_decode_N r.
Proof.
  unfold utf8_encode_cp.
  destruct (N.ltb_spec c 128) as [H1|H1].
  { intros [= <-]. now apply utf8_decode_1. }
  destruct (N.ltb_spec c 2048) as [H2|H2].
  { intros [= <-]. cbn [app]. rewrite utf8_decode_2 by divmod.
    f_equal. f_equal. divmod. }
  destruct (N.ltb_spec c 65536) as [H3|H3].
  { destruct ((55296 <=? c)%N && (c <=? 57343)%N) eqn:Hs; [discriminate|].
    assert (Hns : (c < 55296 \/ 57343 < c)%N).
    { destruct (N.leb_spec 55296 c); destruct (N.leb_spec c 57343); simpl in Hs;
        try discriminate; lia. }
    clear Hs. intros [= <-]. cbn [app]. rewrite utf8_decode_3 by divmod.
    f_equal. f_equal. divmod. }
  destruct (N.ltb_spec c 1114112) as [H4|H4]; [|discriminate].
  intros [= <-]. cbn [app]. rewrite utf8_decode_4 by divmod.
  f_equal. f_equal. divmod.
Qed.

Lemma utf8_decode_N_concat (s : str) (ns : list (list N)) :
  Forall2 (fun c e => utf8_encode_cp c = Some e) s ns ->
  utf8_decode_N (concat ns) = Some s.
Proof.
  induction 1 as [|c e s ns He _ IH]; [reflexivity|].
  simpl. rewrite (utf8_decode_encode_cp c e _ He), IH. reflexivity.
Qed.

Lemma bytes_to_N (ns : list N) (bs : list byte) :
  Forall2 (fun n b => Byte.of_N n = Some b) ns bs -> map Byte.to_N bs = ns.
Proof.
  induction 1 as [|n b ns bs Hb _ IH]; [reflexivity|].
  simpl. rewrite IH. f_equal. now apply Byte.to_of_N.
Qed.

(** Decoding what was encoded gives the text back. *)
Lemma utf8_decode_encode (s : str) (bs : list byte) :
  utf8_encode s = Some bs -> utf8_decode bs = Some s.
Proof.
  unfold utf8_encode, utf8_decode. intros H.
  destruct (mapM utf8_encode_cp s) as [ns|] eqn:Hns; [|discriminate]. simpl in H.
  apply mapM_Some_1 in Hns. apply mapM_Some_1 in H.
  rewrite (bytes_to_N _ _ H). now apply utf8_decode_N_concat.
Qed.

(** ** The driver: what [fix_file] reads, writes and returns *)

Lemma str_eqb_true (a b : str) : a = b -> str_eqb a b = true.
Proof. intros ->. unfold str_eqb. now apply bool_decide_eq_true_2. Qed.

Lemma str_eqb_false (a b : str) : a <> b -> str_eqb a b = false.
Proof. intros H. unfold str_eqb. now apply bool_decide_eq_false_2. Qed.

(** The ways [fix_file] returns. *)
Lemma fix_file_inv (E : Collab) (fuel : nat) (filename : str) (args : Args) (w w' : World)
    (code : Z) :
  fix_file E fuel filename args w = Ret (code, w') ->
  exists contents_bytes w1,
    read_contents filename w = Ret (contents_bytes, w1)
    /\ ((utf8_decode contents_bytes = None /\ code = 1%Z
         /\ w' = print_stderr (filename ++ py " is non-utf-8 (not supported)") w1)
        \/ exists orig out,
             utf8_decode contents_bytes = Some orig
             /\ _fix_src E fuel orig (remove_comma args) = Ret out
             /\ code = (if exit_zero_even_if_changed args then 0
                        else if negb (str_eqb out orig) then 1 else 0)%Z
             /\ ((filename = py "-" /\ w' = print_stdout_noend out w1)
                 \/ (filename <> py "-" /\ out <> orig
                     /\ exists data, utf8_encode out = Some data
                          /\ w' = write_file filename data
                                    (print_stderr (rewriting_message filename) w1))
                 \/ (filename <> py "-" /\ out = orig /\ w' = w1))).
Proof.
  unfold fix_file. intros H.
  apply bind_Ret in H as ([contents_bytes w1] & Hr & H).
  exists contents_bytes, w1. split; [exact Hr|].
  destruct (utf8_decode contents_bytes) as [orig|]; [|left; injection H as <- <-; auto].
  right. apply bind_Ret in H as (out & Hout & H).
  apply bind_Ret in H as (w2 & Hw & H).
  exists orig, out. split; [reflexivity|]. split; [exact Hout|].
  assert (Hcode : code = (if exit_zero_even_if_changed args then 0
                          else if negb (str_eqb out orig) then 1 else 0)%Z /\ w' = w2).
  { destruct (exit_zero_even_if_changed args); injection H as <- <-; auto. }
  destruct Hcode as [-> ->]. split; [reflexivity|].
  destruct (decide (filename = py "-")) as [Hf|Hf].
  - left. rewrite (str_eqb_true _ _ Hf) in Hw. injection Hw as <-. auto.
  - right. rewrite (str_eqb_false _ _ Hf) in Hw.
    destruct (decide (out = orig)) as [He|He].
    + right. rewrite (str_eqb_true _ _ He) in Hw. simpl in Hw. injection Hw as <-. auto.
    + left. rewrite (str_eqb_false _ _ He) in Hw. simpl in Hw.
      destruct (utf8_encode out) as [data|]; [|discriminate]. injection Hw as <-.
      split; [exact Hf|]. split; [exact He|]. exists data. auto.
Qed.

Lemma read_contents_inv (filename : str) (w w1 : World) (contents_bytes : list byte) :
  read_contents filename w = Ret (contents_bytes, w1) ->
  (filename = py "-" /\ contents_bytes = stdin_buffer w /\ w1 = snd (read_stdin w))
  \/ (filename <> py "-" /\ fs w !! filename = Some contents_bytes /\ w1 = w).
Proof.
  unfold read_contents. intros H.
  destruct (decide (filename = py "-")) as [Hf|Hf].
  - left. rewrite (str_eqb_true _ _ Hf) in H. injection H as <- <-. auto.
  - right. rewrite (str_eqb_false _ _ Hf) in H.
    destruct (fs w !! filename); [|discriminate]. injection H as <- <-. auto.
Qed.

(** [fix_file] on a named file: the exit code and the world say what became
    of the text.  An unchanged text leaves the world as it was and gives 0;
    a changed text is written to the file as UTF-8 that decodes to exactly
    what [_fix_src] returned, the message goes to standard error, and the
    exit code is 1 unless [--exit-zero-even-if-changed] is set. *)
Theorem fix_file_writes_result (E : Collab) (fuel : nat) (filename : str) (args : Args)
    (w w' : World) (code : Z) (contents_bytes : list byte) (orig : str) :
  filename <> py "-" ->
  fs w !! filename = Some contents_bytes ->
  utf8_decode contents_bytes = Some orig ->
  fix_file E fuel filename args w = Ret (code, w') ->
  exists out,
    _fix_src E fuel orig (remove_comma args) = Ret out
    /\ ((out = orig /\ w' = w /\ code = 0%Z)
        \/ (out <> orig
            /\ (exists data, fs w' !! filename = Some data /\ utf8_decode data = Some out)
            /\ stderr w' = stderr w ++ rewriting_message filename ++ py "\n"
            /\ code = (if exit_zero_even_if_changed args then 0 else 1)%Z)).
Proof.
  intros Hf Hfile Hdec H.
  apply fix_file_inv in H as (bytes & w1 & Hr & H).
  apply read_contents_inv in Hr as [[Hf' _]|(_ & Hfile' & ->)]; [done|].
  rewrite Hfile in Hfile'. injection Hfile' as <-.
  destruct H as [(Hnone & _)|(orig' & out & Hdec' & Hout & -> & H)]; [congruence|].
  rewrite Hdec in Hdec'. injection Hdec' as <-.
  exists out. split; [exact Hout|].
  destruct H as [[Hf' _]|[(_ & Hne & data & Henc & ->)|(_ & -> & ->)]]; [done| |].
  - right. split; [exact Hne|]. rewrite (str_eqb_false _ _ Hne). simpl.
    split; [|split; reflexivity].
    exists data. split; [apply lookup_insert_eq | now apply utf8_decode_encode].
  - left. rewrite (str_eqb_true _ _ eq_refl). simpl.
    destruct (exit_zero_even_if_changed args); auto.
Qed.

Lemma fix_file_writes_result_witness :
  exists out,
    _fix_src (Ref.collab false) 64 (py "x(\n    1\n)\n") false = Ret out
    /\ ((out = py "x(\n    1\n)\n"
         /\ mkWorld {[ py "f.py" := default [] (utf8_encode (py "x(\n    1,\n)\n")) ]}
              [] [] (py "Rewriting f.py\n")
            = one_file (py "f.py") (py "x(\n    1\n)\n")
         /\ 1%Z = 0%Z)
        \/ (out <> py "x(\n    1\n)\n"
            /\ (exists data,
                  fs (mkWorld {[ py "f.py" := default [] (utf8_encode (py "x(\n    1,\n)\n")) ]}
                        [] [] (py "Rewriting f.py\n")) !! py "f.py" = Some data
                  /\ utf8_decode data = Some out)
            /\ stderr (mkWorld {[ py "f.py" := default [] (utf8_encode (py "x(\n    1,\n)\n")) ]}
                         [] [] (py "Rewriting f.py\n"))
               = stderr (one_file (py "f.py") (py "x(\n    1\n)\n"))
                 ++ rewriting_message (py "f.py") ++ py "\n"
            /\ 1%Z = (if exit_zero_even_if_changed (default_args [py "f.py"]) then 0 else 1)%Z)).
Proof.
  apply (fix_file_writes_result (Ref.collab false) 64 (py "f.py") (default_args [py "f.py"])
           (one_file (py "f.py") (py "x(\n    1\n)\n")) _ 1%Z
           (default [] (utf8_encode (py "x(\n    1\n)\n"))) (py "x(\n    1\n)\n")).
  - vm_compute. discriminate.
  - apply lookup_singleton_eq.
  - vm_compute. reflexivity.
  - vm_compute. reflexivity.
Defined.

(** [fix_file] returns 0 or 1, writes no file but the one it is given, and
    writes none at all when it reads standard input. *)
Lemma fix_file_frame (E : Collab) (fuel : nat) (filename : str) (args : Args) (w w' : World)
    (code : Z) :
  fix_file E fuel filename args w = Ret (code, w') ->
  (code = 0 \/ code = 1)%Z
  /\ (forall f, f <> filename -> fs w' !! f = fs w !! f)
  /\ (filename = py "-" -> fs w' = fs w).
Proof.
  intros H. apply fix_file_inv in H as (bytes & w1 & Hr & H).
  assert (Hfs : fs w1 = fs w).
  { apply read_contents_inv in Hr as [(_ & _ & ->)|(_ & _ & ->)]; reflexivity. }
  destruct H as [(_ & -> & ->)|(orig & out & _ & _ & -> & H)].
  - split; [auto|]. simpl. rewrite Hfs. auto.
  - split.
    { destruct (exit_zero_even_if_changed args); [auto|]. destruct (negb _); auto. }
    destruct H as [[Hf ->]|[(Hf & _ & data & _ & ->)|(Hf & _ & ->)]]; simpl; rewrite ?Hfs.
    + auto.
    + split; [|done]. intros f Hne. now rewrite lookup_insert_ne by done.
    + auto.
Qed.

Lemma main_loop_frame (E : Collab) (fuel : nat) (args : Args) (names : list str) :
  forall (ret : Z) (w w' : World) (code : Z),
    (ret = 0 \/ ret = 1)%Z ->
    main_loop E fuel names args ret w = Ret (code, w') ->
    (code = 0 \/ code = 1)%Z /\ (forall f, f ∉ names -> fs w' !! f = fs w !! f).
Proof.
  induction names as [|filename rest IH]; intros ret w w' code Hret H; simpl in H.
  - injection H as <- <-. auto.
  - apply bind_Ret in H as ([r w1] & Hfix & H).
    apply fix_file_frame in Hfix as (Hr & Hother & _).
    apply IH in H as [Hcode Hrest].
    + split; [exact Hcode|]. intros f Hf. apply not_elem_of_cons in Hf as [Hne Hf].
      rewrite (Hrest f Hf). now apply Hother.
    + destruct Hret as [->| ->]; destruct Hr as [->| ->]; simpl; auto.
Qed.

(** [main] returns 0 or 1 and leaves every file it is not given as it was. *)
Theorem main_touches_named_files (E : Collab) (fuel : nat) (args : Args) (w w' : World)
    (code : Z) :
  main E fuel args w = Ret (code, w') ->
  (code = 0 \/ code = 1)%Z /\ (forall f, f ∉ filenames args -> fs w' !! f = fs w !! f).
Proof.
  unfold main. intros H. apply main_loop_frame in H as [Hcode Hfs]; [|auto].
  split; [exact Hcode|]. intros f Hf. rewrite (Hfs f Hf).
  destruct (_ || _); reflexivity.
Qed.

Lemma main_touches_named_files_witness :
  (1 = 0 \/ 1 = 1)%Z
  /\ (forall f, f ∉ filenames (default_args [py "f.py"]) ->
        fs (mkWorld (<[ py "g.py" := default [] (utf8_encode (py "y(\n    2\n)\n")) ]>
                       {[ py "f.py" := default [] (utf8_encode (py "x(\n    1,\n)\n")) ]})
              [] [] (py "Rewriting f.py\n")) !! f
        = fs two_files !! f).
Proof.
  apply (main_touches_named_files (Ref.collab false) 64 (default_args [py "f.py"]) two_files).
  vm_compute. reflexivity.
Defined.

(** *** Valid UTF-8 stays valid *)

Lemma fix_file_decodable (E : Collab) (fuel : nat) (filename : str) (args : Args)
    (w w' : World) (code : Z) :
  files_decodable w ->
  fix_file E fuel filename args w = Ret (code, w') ->
  files_decodable w'.
Proof.
  intros Hw H. apply fix_file_inv in H as (bytes & w1 & Hr & H).
  assert (Hfs : fs w1 = fs w).
  { apply read_contents_inv in Hr as [(_ & _ & ->)|(_ & _ & ->)]; reflexivity. }
  assert (Hw1 : files_decodable w1) by (intros f data; rewrite Hfs; apply Hw).
  destruct H as [(_ & _ & ->)|(orig & out & _ & _ & _ & H)]; [exact Hw1|].
  destruct H as [[_ ->]|[(_ & _ & data & Henc & ->)|(_ & _ & ->)]]; [exact Hw1| |exact Hw1].
  intros f d. simpl. destruct (decide (f = filename)) as [->|Hne].
  - rewrite lookup_insert_eq. intros [= <-]. rewrite (utf8_decode_encode _ _ Henc). eauto.
  - rewrite lookup_insert_ne by done. apply Hw1.
Qed.

Lemma fix_file_exit_zero (E : Collab) (fuel : nat) (filename : str) (args : Args)
    (w w' : World) (code : Z) :
  exit_zero_even_if_changed args = true ->
  filename <> py "-" ->
  files_decodable w ->
  fix_file E fuel filename args w = Ret (code, w') ->
  code = 0%Z.
Proof.
  intros Hflag Hf Hw H. apply fix_file_inv in H as (bytes & w1 & Hr & H).
  apply read_contents_inv in Hr as [[Hf' _]|(_ & Hfile & ->)]; [done|].
  destruct H as [(Hnone & _)|(orig & out & _ & _ & -> & _)].
  - destruct (Hw _ _ Hfile) as [t Ht]. congruence.
  - now rewrite Hflag.
Qed.

Lemma main_loop_exit_zero (E : Collab) (fuel : nat) (args : Args) (names : list str) :
  exit_zero_even_if_changed args = true ->
  py "-" ∉ names ->
  forall (w w' : World) (code : Z),
    files_decodable w ->
    main_loop E fuel names args 0%Z w = Ret (code, w') ->
    code = 0%Z /\ files_decodable w'.
Proof.
  intros Hflag. induction names as [|filename rest IH]; intros Hnames w w' code Hw H;
    simpl in H.
  - injection H as <- <-. auto.
  - apply not_elem_of_cons in Hnames as [Hne Hrest].
    apply bind_Ret in H as ([r w1] & Hfix & H).
    pose proof (fix_file_decodable _ _ _ _ _ _ _ Hw Hfix) as Hw1.
    apply fix_file_exit_zero in Hfix; [|assumption|congruence|assumption].
    subst r. simpl in H. now apply (IH Hrest w1).
Qed.

(** With [--exit-zero-even-if-changed], on files that hold valid UTF-8, [main]
    returns 0 whatever it rewrites, and the files still hold valid UTF-8. *)
Theorem main_exit_zero (E : Collab) (fuel : nat) (args : Args) (w w' : World) (code : Z) :
  exit_zero_even_if_changed args = true ->
  py "-" ∉ filenames args ->
  files_decodable w ->
  main E fuel args w = Ret (code, w') ->
  code = 0%Z /\ files_decodable w'.
Proof.
  unfold main. intros Hflag Hnames Hw H.
  apply (main_loop_exit_zero E fuel args _ Hflag Hnames _ _ _) in H; [exact H|].
  destruct (_ || _); exact Hw.
Qed.

Lemma one_file_decodable (filename text : str) (data : list byte) :
  utf8_encode text = Some data -> files_decodable (one_file filename text).
Proof.
  intros Henc f d. unfold one_file. simpl. rewrite Henc. simpl.
  intros [<- <-]%lookup_singleton_Some. rewrite (utf8_decode_encode _ _ Henc). eauto.
Qed.

Lemma main_exit_zero_witness :
  0%Z = 0%Z
  /\ files_decodable
       (mkWorld {[ py "t.py" := default [] (utf8_encode (py "x(\n    1,\n)")) ]}
          [] [] (py "Rewriting t.py\n")).
Proof.
  apply (main_exit_zero (Ref.collab false) 64 (mkArgs [py "t.py"] true false false false)
           (one_file (py "t.py") (py "x(\n    1\n)"))).
  - reflexivity.
  - apply not_elem_of_cons. split; [vm_compute; discriminate | apply not_elem_of_nil].
  - eapply one_file_decodable. vm_compute. reflexivity.
  - vm_compute. reflexivity.
Defined.

(** *** Exit code 0 without the flag *)

Lemma fix_file_zero (E : Collab) (fuel : nat) (filename : str) (args : Args)
    (w w' : World) :
  exit_zero_even_if_changed args = false ->
  filename <> py "-" ->
  fix_file E fuel filename args w = Ret (0%Z, w') ->
  w' = w.
Proof.
  intros Hflag Hf H. apply fix_file_inv in H as (bytes & w1 & Hr & H).
  apply read_contents_inv in Hr as [[Hf' _]|(_ & _ & ->)]; [done|].
  destruct H as [(_ & Hc & _)|(orig & out & _ & _ & Hc & H)]; [discriminate|].
  rewrite Hflag in Hc.
  destruct H as [[Hf' _]|[(_ & Hne & _)|(_ & _ & ->)]]; [done| |reflexivity].
  rewrite (str_eqb_false _ _ Hne) in Hc. discriminate.
Qed.

Lemma main_loop_zero (E : Collab) (fuel : nat) (args : Args) (names : list str) :
  exit_zero_even_if_changed args = false ->
  py "-" ∉ names ->
  forall (ret : Z) (w w' : World),
    main_loop E fuel names args ret w = Ret (0%Z, w') ->
    ret = 0%Z /\ w' = w.
Proof.
  intros Hflag. induction names as [|filename rest IH]; intros Hnames ret w w' H; simpl in H.
  - injection H as <- <-. auto.
  - apply not_elem_of_cons in Hnames as [Hne Hrest].
    apply bind_Ret in H as ([r w1] & Hfix & H).
    apply (IH Hrest) in H as [Hlor ->].
    apply Z.lor_eq_0_iff in Hlor as [-> ->].
    split; [reflexivity|]. apply fix_file_zero in Hfix; [exact Hfix|assumption|congruence].
Qed.

(** Without [--exit-zero-even-if-changed], when [main] returns 0 on named
    files it has written nothing and printed nothing but its warning about
    the legacy flags: the world is as it found it. *)
Theorem main_zero_means_untouched (E : Collab) (fuel : nat) (args : Args) (w w' : World) :
  exit_zero_even_if_changed args = false ->
  py "-" ∉ filenames args ->
  main E fuel args w = Ret (0%Z, w') ->
  w' = (if py35_plus args || py36_plus args
        then print_stderr (py "WARNING: --py35-plus / --py36-plus do nothing") w
        else w).
Proof.
  unfold main. intros Hflag Hnames H.
  now apply (main_loop_zero E fuel args _ Hflag Hnames) in H as [_ ->].
Qed.

Lemma main_zero_means_untouched_witness :
  one_file (py "f.py") (py "x = 5\n")
  = (if py35_plus (default_args [py "f.py"]) || py36_plus (default_args [py "f.py"])
     then print_stderr (py "WARNING: --py35-plus / --py36-plus do nothing")
            (one_file (py "f.py") (py "x = 5\n"))
     else one_file (py "f.py") (py "x = 5\n")).
Proof.
  apply (main_zero_means_untouched (Ref.collab false) 64 (default_args [py "f.py"])).
  - reflexivity.
  - apply not_elem_of_cons. split; [vm_compute; discriminate | apply not_elem_of_nil].
  - vm_compute. reflexivity.
Defined.

(** *** The legacy flags *)

Lemma main_loop_flags (E : Collab) (fuel : nat) (args args' : Args) (names : list str) :
  exit_zero_even_if_changed args = exit_zero_even_if_changed args' ->
  remove_comma args = remove_comma args' ->
  forall (ret : Z) (w : World),
    main_loop E fuel names args ret w = main_loop E fuel names args' ret w.
Proof.
  intros H1 H2. induction names as [|filename rest IH]; intros ret w; simpl; [reflexivity|].
  replace (fix_file E fuel filename args w) with (fix_file E fuel filename args' w)
    by (unfold fix_file; now rewrite H1, H2).
  destruct (fix_file E fuel filename args' w) as [[r w1]| |]; simpl;
    [apply IH | reflexivity | reflexivity].
Qed.

(** [--py35-plus] and [--py36-plus] change nothing but the warning: a run
    with them is the run without them in a world where the warning has been
    printed. *)
Theorem main_legacy_flags (E : Collab) (fuel : nat) (args : Args) (w : World) :
  main E fuel args w
  = main E fuel
      (mkArgs (filenames args) (exit_zero_even_if_changed args) false false (remove_comma args))
      (if py35_plus args || py36_plus args
       then print_stderr (py "WARNING: --py35-plus / --py36-plus do nothing") w
       else w).
Proof. unfold main. simpl. now apply main_loop_flags. Qed.

(** *** No [IndexError] *)

Lemma fix_file_no_index_error (E : Collab) (fuel : nat) (filename : str) (args : Args)
    (w : World) :
  descriptors_in_range E -> fix_file E fuel filename args w <> Raise IndexError.
Proof.
  intros Hrange. unfold fix_file, read_contents.
  destruct (str_eqb filename (py "-")).
  - simpl. destruct (utf8_decode _) as [orig|]; [|discriminate].
    pose proof (fix_src_no_raise E fuel orig (remove_comma args) Hrange) as Hnr.
    destruct (_fix_src _ _ _ _) as [out|e'|]; simpl; [|now destruct (Hnr e')|discriminate].
    destruct (exit_zero_even_if_changed args); discriminate.
  - destruct (fs w !! filename) as [data|]; simpl; [|discriminate].
    destruct (utf8_decode _) as [orig|]; [|discriminate].
    pose proof (fix_src_no_raise E fuel orig (remove_comma args) Hrange) as Hnr.
    destruct (_fix_src _ _ _ _) as [out|e'|]; simpl; [|now destruct (Hnr e')|discriminate].
    destruct (negb _); simpl.
    + destruct (utf8_encode out); simpl;
        [destruct (exit_zero_even_if_changed args); discriminate | discriminate].
    + destruct (exit_zero_even_if_changed args); discriminate.
Qed.

Lemma main_loop_no_index_error (E : Collab) (fuel : nat) (args : Args) :
  descriptors_in_range E ->
  forall (names : list str) (ret : Z) (w : World),
    main_loop E fuel names args ret w <> Raise IndexError.
Proof.
  intros Hrange. induction names as [|filename rest IH]; intros ret w; simpl; [discriminate|].
  destruct (fix_file E fuel filename args w) as [[r w1]|e|] eqn:Hfix; simpl;
    [apply IH | | discriminate].
  intros [= ->]. now apply fix_file_no_index_error in Hfix.
Qed.

(** The indexing of [_main.py] is safe: when the descriptors of
    [find_simple] are in range, no [tokens[...]] of [_fix_unhugged_brace],
    of [_is_single_element_tuple] or of the removal raises [IndexError] in
    any run of [main], in either mode, on any files. *)
Theorem main_no_index_error (E : Collab) (fuel : nat) (args : Args) (w : World) :
  descriptors_in_range E -> main E fuel args w <> Raise IndexError.
Proof. intros Hrange. unfold main. now apply main_loop_no_index_error. Qed.

Lemma main_no_index_error_witness :
  match main (Ref.collab false) 64 (mkArgs [py "f.py"; py "g.py"] false false false true)
          two_files with
  | Raise IndexError => False
  | _ => True
  end.
Proof.
  pose proof (main_no_index_error (Ref.collab false) 64
                (mkArgs [py "f.py"; py "g.py"] false false false true) two_files
                (ref_descriptors_in_range false)) as H.
  destruct (main (Ref.collab false) 64 _ two_files) as [r|[]|]; try exact I.
  exact (H eq_refl).
Defined.

(** *** Standard input *)

(** [fix_file] on [-]: the bytes of standard input are consumed, the result
    of [_fix_src] goes to standard output whether or not it differs from the
    input, no file is written and nothing goes to standard error. *)
Theorem fix_file_stdin (E : Collab) (fuel : nat) (args : Args) (w w' : World) (code : Z)
    (orig : str) :
  utf8_decode (stdin_buffer w) = Some orig ->
  fix_file E fuel (py "-") args w = Ret (code, w') ->
  exists out,
    _fix_src E fuel orig (remove_comma args) = Ret out
    /\ w' = mkWorld (fs w) [] (stdout w ++ out) (stderr w)
    /\ code = (if exit_zero_even_if_changed args then 0
               else if bool_decide (out = orig) then 0 else 1)%Z.
Proof.
  intros Hdec H. apply fix_file_inv in H as (bytes & w1 & Hr & H).
  apply read_contents_inv in Hr as [(_ & -> & ->)|(Hf & _)]; [|done].
  destruct H as [(Hnone & _)|(orig' & out & Hdec' & Hout & -> & H)]; [congruence|].
  rewrite Hdec in Hdec'. injection Hdec' as <-.
  exists out. split; [exact Hout|].
  destruct H as [[_ ->]|[(Hf & _)|(Hf & _)]]; [|done|done].
  split; [reflexivity|]. unfold str_eqb. now destruct (bool_decide (out = orig)).
Qed.

Lemma fix_file_stdin_witness :
  exists out,
    _fix_src (Ref.collab false) 64 (py "x = 5\n") false = Ret out
    /\ mkWorld ∅ [] (py "x = 5\n") []
       = mkWorld (fs (mkWorld ∅ (default [] (utf8_encode (py "x = 5\n"))) [] [])) []
           (stdout (mkWorld ∅ (default [] (utf8_encode (py "x = 5\n"))) [] []) ++ out)
           (stderr (mkWorld ∅ (default [] (utf8_encode (py "x = 5\n"))) [] []))
    /\ 0%Z = (if exit_zero_even_if_changed (default_args [py "-"]) then 0
              else if bool_decide (out = py "x = 5\n") then 0 else 1)%Z.
Proof.
  apply (fix_file_stdin (Ref.collab false) 64 (default_args [py "-"])
           (mkWorld ∅ (default [] (utf8_encode (py "x = 5\n"))) [] [])).
  - vm_compute. reflexivity.
  - vm_compute. reflexivity.
Defined.

(** ** The skip patterns look at the whole text *)

Lemma re_match_app (p : list re_atom) : forall s b : str,
  re_match p s = true -> re_match p (s ++ b) = true.
Proof.
  induction p as [|a p IH]; intros s b H; [reflexivity|].
  destruct a as [c|cl|cl].
  - destruct s as [|x s]; [discriminate|]. simpl in *.
    apply andb_true_iff in H as [-> H]. simpl. now apply IH.
  - destruct s as [|x s]; [discriminate|]. simpl in *.
    apply andb_true_iff in H as [-> H]. simpl. now apply IH.
  - induction s as [|x s IHs]; [discriminate|]. simpl in *.
    apply andb_true_iff in H as [-> H]. simpl.
    apply orb_true_iff in H as [H|H]; apply orb_true_iff; [left; now apply IH | right; now apply IHs].
Qed.

Lemma re_search_unfold (p : list re_atom) (s : str) :
  re_search p s = re_match p s || match s with [] => false | _ :: s' => re_search p s' end.
Proof. destruct s; reflexivity. Qed.

Lemma re_search_app_r (p : list re_atom) : forall s b : str,
  re_search p s = true -> re_search p (s ++ b) = true.
Proof.
  induction s as [|x s IH]; intros b H.
  - simpl in H. rewrite orb_false_r in H. rewrite re_search_unfold.
    now rewrite (re_match_app p [] b H).
  - simpl in H. apply orb_true_iff in H as [H|H].
    + rewrite re_search_unfold. now rewrite (re_match_app p (x :: s) b H).
    + simpl. rewrite (IH b H). apply orb_true_r.
Qed.

Lemma re_search_app_l (p : list re_atom) (s : str) : forall a : str,
  re_search p s = true -> re_search p (a ++ s) = true.
Proof.
  induction a as [|x a IH]; intros H; [exact H|].
  simpl. rewrite (IH H). apply orb_true_r.
Qed.

(** The verdict of [_should_skip_adding_comma] is about the file, not about
    the bracket: once it holds for a text, it holds for every text that
    contains it, whatever comes before or after. *)
Theorem skip_verdict_extends (s a b : str) (fix_data : option Fix) :
  _should_skip_adding_comma s fix_data = true ->
  _should_skip_adding_comma (a ++ s ++ b) fix_data = true.
Proof.
  destruct fix_data as [fd|]; [|reflexivity]. unfold _should_skip_adding_comma.
  intros H. apply existsb_exists in H as (p & Hin & Hp).
  apply existsb_exists. exists p. split; [exact Hin|].
  now apply re_search_app_l, re_search_app_r.
Qed.

Lemma skip_verdict_extends_witness :
  _should_skip_adding_comma
    (py "import os\n" ++ py "x = (\n    object\n), object" ++ py "\nf(\n    1\n)\n")
    (Some (mkFix (12, 16)%Z true)) = true.
Proof.
  apply (skip_verdict_extends (py "x = (\n    object\n), object")).
  vm_compute. reflexivity.
Defined.

(** ** Remove mode when a skip pattern matches the text *)

Section SkipRemove.
Context (E : Collab) (contents_text : str) (callbacks : gmap Offset (list callback)).
Hypothesis Hskip : existsb (fun pattern => re_search pattern contents_text) test_patterns = true.
Hypothesis Hcb : callbacks_respect (Forall2 ws_fix) callbacks.

Lemma remove_body_skip i token toks toks' :
  remove_body E contents_text callbacks i token toks = Ret toks' -> Forall2 ws_fix toks toks'.
Proof.
  unfold remove_body. intros H.
  destruct (bool_decide (src token = [])); [injection H as <-; apply ws_fix_refl|].
  pose proof (run_callbacks_respect _ callbacks token i toks ws_fix_refl ws_fix_trans Hcb) as Hrun.
  destruct (is_start_brace E token); [|injection H as <-; exact Hrun].
  eapply ws_fix_trans; [exact Hrun|].
  destruct (find_simple E i _) as [fd|]; [|eapply fix_unhugged_brace_ws_fix, H].
  rewrite (should_skip_always contents_text Hskip), andb_false_r in H.
  eapply fix_unhugged_brace_ws_fix, H.
Qed.

Lemma remove_loop_skip fuel : forall i toks,
  match _changing_list fuel (remove_body E contents_text callbacks) i toks with
  | Ret toks' => Forall2 ws_fix toks toks'
  | Raise _ => True
  | OutOfFuel => (Z.of_nat fuel <= Z.of_nat (length toks) - i)%Z
  end.
Proof.
  induction fuel as [|fuel IH]; intros i toks; simpl.
  - destruct (Z.ltb_spec i (Z.of_nat (length toks))) as [Hi|Hi]; simpl; [lia | apply ws_fix_refl].
  - destruct (Z.ltb_spec i (Z.of_nat (length toks))) as [Hi|Hi]; simpl; [|apply ws_fix_refl].
    destruct (py_get toks i) as [token| |] eqn:Hg; simpl;
      [|done|now apply py_get_fuel in Hg].
    destruct (remove_body E contents_text callbacks i token toks) as [toks1| |] eqn:Hb;
      simpl; [|done|now apply remove_body_fuel in Hb].
    apply remove_body_skip in Hb.
    specialize (IH (i + 1)%Z toks1).
    destruct (_changing_list fuel _ (i + 1)%Z toks1); [|done|].
    + eapply ws_fix_trans; eassumption.
    + apply Forall2_length in Hb. lia.
Qed.
End SkipRemove.

(** The patterns that name tests of add mode switch off removal as well:
    when one of them matches the text, remove mode deletes no comma from any
    bracket of the file.  The tokens of the result are those of the input,
    but for whitespace tokens replaced by [Token('UNIMPORTANT_WS', '\n')];
    [_is_single_element_tuple] is never asked. *)
Theorem skip_pattern_removes_no_comma (E : Collab) (fuel : nat) (s : str) :
  existsb (fun pattern => re_search pattern s) test_patterns = true ->
  (forall a, ast_parse E s = Some a -> callbacks_respect (Forall2 ws_fix) (visit E a)) ->
  match _fix_src E fuel s true with
  | Ret out =>
      (ast_parse E s = None /\ out = s)
      \/ (exists toks', out = tokens_to_src toks'
            /\ Forall2 ws_fix (src_to_tokens E s) toks'
            /\ length toks' = length (src_to_tokens E s))
  | Raise _ => True
  | OutOfFuel => fuel <= length (src_to_tokens E s)
  end.
Proof.
  intros Hskip Hcb. unfold _fix_src, _remove_trailing_commas.
  destruct (ast_parse E s) as [a|] eqn:Hp; [|left; auto].
  pose proof (remove_loop_skip E s (visit E a) Hskip (Hcb a eq_refl) fuel 0%Z (src_to_tokens E s)) as H.
  destruct (_changing_list fuel _ 0%Z (src_to_tokens E s)) as [toks'| |]; simpl; [|done|lia].
  right. exists toks'. split; [reflexivity|]. split; [exact H|].
  symmetry. now apply Forall2_length in H.
Qed.

Lemma skip_pattern_removes_no_comma_witness :
  match _fix_src (Ref.collab false) 64 text_with_pattern_and_comma true with
  | Ret out =>
      (ast_parse (Ref.collab false) text_with_pattern_and_comma = None
       /\ out = text_with_pattern_and_comma)
      \/ (exists toks', out = tokens_to_src toks'
            /\ Forall2 ws_fix (src_to_tokens (Ref.collab false) text_with_pattern_and_comma) toks'
            /\ length toks' = length (src_to_tokens (Ref.collab false) text_with_pattern_and_comma))
  | Raise _ => True
  | OutOfFuel => 64 <= length (src_to_tokens (Ref.collab false) text_with_pattern_and_comma)
  end.
Proof.
  apply (skip_pattern_removes_no_comma (Ref.collab false) 64 text_with_pattern_and_comma).
  - vm_compute. reflexivity.
  - intros a _. apply callbacks_respect_empty.
Defined.

(** On that text remove mode keeps the comma of [f(...)], which it deletes
    when the call stands alone. *)
Lemma skip_pattern_remove_example :
  _fix_src (Ref.collab false) 64 text_with_pattern_and_comma true
  = Ret text_with_pattern_and_comma
  /\ _fix_src (Ref.collab false) 64 (py "f(\n    1,\n)\n") true = Ret (py "f(\n    1\n)\n").
Proof. split; vm_compute; reflexivity. Qed.

(** ** The hard-coded literals, wherever they stand *)

Lemma starts_with_app (p b : str) : starts_with p (p ++ b) = true.
Proof. induction p as [|c p IH]; [reflexivity|]. simpl. now rewrite N.eqb_refl. Qed.

Lemma py_in_unfold (p s : str) :
  py_in p s = starts_with p s || match s with [] => false | _ :: s' => py_in p s' end.
Proof. destruct s; reflexivity. Qed.

Lemma py_in_app (p b : str) : forall a : str, py_in p (a ++ p ++ b) = true.
Proof.
  induction a as [|x a IH].
  - simpl. rewrite py_in_unfold. now rewrite starts_with_app.
  - simpl. rewrite IH. apply orb_true_r.
Qed.

(** Add mode on a text that holds one of the five hard-coded literals, at
    any place and between any other text: the result is one of the five
    replacements, for every parser, tokenizer and analyzer, and with no
    iteration of the loop. *)
Theorem hard_coded_pattern_anywhere (E : Collab) (a b pattern replacement : str) :
  In (pattern, replacement) hard_coded ->
  exists p r, In (p, r) hard_coded
    /\ py_in p (a ++ pattern ++ b) = true
    /\ _fix_src E 0 (a ++ pattern ++ b) false = Ret r.
Proof.
  intros Hin. unfold _fix_src.
  destruct (find _ hard_coded) as [[p r]|] eqn:Hf.
  - apply find_some in Hf as [Hp Hr]. exists p, r. auto.
  - eapply find_none in Hf; [|exact Hin]. simpl in Hf. now rewrite py_in_app in Hf.
Qed.

Lemma hard_coded_pattern_anywhere_witness :
  exists p r, In (p, r) hard_coded
    /\ py_in p (py "import os\n" ++ py "x = [x\n     for x in y()]" ++ py "\nprint(x)\n") = true
    /\ _fix_src (Ref.collab false) 0
         (py "import os\n" ++ py "x = [x\n     for x in y()]" ++ py "\nprint(x)\n") false
       = Ret r.
Proof.
  apply (hard_coded_pattern_anywhere (Ref.collab false) (py "import os\n") (py "\nprint(x)\n")
           (py "x = [x\n     for x in y()]") (py "x = [\n    x\n    for x in y()\n]\n")).
  vm_compute. auto.
Defined.

(** ** Add mode and the descriptor *)

Section AddNoDescriptor.
Context (E : Collab) (contents_text : str) (callbacks : gmap Offset (list callback)).
Context (toks : list Token).
Hypothesis Hcb : callbacks_respect eq callbacks.
Hypothesis Hnone : forall (i : nat) (token : Token),
  toks !! i = Some token -> is_start_brace E token = true ->
  find_simple E (Z.of_nat i) toks = None.

Lemma add_body_no_descriptor (i : Z) (token : Token) :
  (0 <= i)%Z -> toks !! Z.to_nat i = Some token ->
  add_body E contents_text callbacks i token toks = Ret toks.
Proof.
  intros Hi Hl.
  assert (Hrun : run_callbacks callbacks token i toks = toks).
  { symmetry. apply run_callbacks_respect; [intros x; reflexivity | intros x y z; congruence | exact Hcb]. }
  unfold add_body. rewrite Hrun.
  destruct (bool_decide (src token = [])); [reflexivity|].
  destruct (is_start_brace E token) eqn:Hb; [|reflexivity].
  specialize (Hnone _ _ Hl Hb). rewrite Z2Nat.id in Hnone by exact Hi.
  now rewrite Hnone.
Qed.

Lemma add_loop_no_descriptor fuel : forall i,
  (0 <= i)%Z -> (Z.of_nat (length toks) - i < Z.of_nat fuel)%Z ->
  _changing_list fuel (add_body E contents_text callbacks) i toks = Ret toks.
Proof.
  induction fuel as [|fuel IH]; intros i Hi Hf; simpl;
    destruct (Z.ltb_spec i (Z.of_nat (length toks))) as [Hlt|Hge]; try reflexivity; [lia|].
  destruct (py_get_valid toks i ltac:(lia)) as (token & -> & Hl). simpl.
  rewrite add_body_no_descriptor by assumption. simpl.
  apply IH; lia.
Qed.
End AddNoDescriptor.

(** Add mode calls [fix_brace] only with a descriptor: where [find_simple]
    returns [None] at every opening bracket of the text (and no callback
    changes the tokens), it returns the text of the tokens as they were
    read, whatever [fix_brace] would do. *)
Theorem add_mode_needs_descriptor (E : Collab) (fuel : nat) (s : str) (a : Ast E) :
  find (fun pr => py_in (fst pr) s) hard_coded = None ->
  ast_parse E s = Some a ->
  callbacks_respect eq (visit E a) ->
  (forall (i : nat) (token : Token),
     src_to_tokens E s !! i = Some token -> is_start_brace E token = true ->
     find_simple E (Z.of_nat i) (src_to_tokens E s) = None) ->
  length (src_to_tokens E s) < fuel ->
  _fix_src E fuel s false = Ret (tokens_to_src (src_to_tokens E s)).
Proof.
  intros Hh Hp Hcb Hnone Hfuel. unfold _fix_src. rewrite Hh, Hp.
  rewrite (add_loop_no_descriptor E s (visit E a) _ Hcb Hnone fuel 0%Z) by lia.
  reflexivity.
Qed.

Lemma add_mode_needs_descriptor_witness :
  _fix_src (Ref.collab true) 64 (py "x(1, 2)\ny = [3]\n") false
  = Ret (tokens_to_src (src_to_tokens (Ref.collab true) (py "x(1, 2)\ny = [3]\n"))).
Proof.
  apply (add_mode_needs_descriptor (Ref.collab true) 64 (py "x(1, 2)\ny = [3]\n") ()).
  - vm_compute. reflexivity.
  - vm_compute. reflexivity.
  - apply callbacks_respect_empty.
  - each_token.
  - vm_compute. lia.
Defined.

(** ** [_fix_unhugged_brace] on its own result *)

Lemma py_index_length {A} (l l' : list A) (i : Z) :
  length l' = length l -> py_index l' i = py_index l i.
Proof. unfold py_index. now intros ->. Qed.

(** [_fix_unhugged_brace] keeps the number of tokens and changes nothing
    when it is called again with the same descriptor, from any index [i]
    (which it does not read). *)
Theorem fix_unhugged_brace_idempotent (i i' : Z) (toks toks' : list Token)
    (fix_data : option Fix) :
  _fix_unhugged_brace i toks fix_data = Ret toks' ->
  length toks' = length toks /\ _fix_unhugged_brace i' toks' fix_data = Ret toks'.
Proof.
  unfold _fix_unhugged_brace. intros H.
  destruct fix_data as [fd|]; [|injection H as <-; auto].
  destruct (negb (multi_arg fd)); [injection H as <-; auto|].
  destruct (py_get toks (snd (braces fd) - 1)) as [t| |] eqn:Hg; simpl in H; try discriminate.
  destruct (is_ws_name t) eqn:Hws.
  - pose proof Hg as Hg'. apply py_get_Ret in Hg' as (k & Hk & Hl).
    unfold py_set in *. rewrite Hk in H. simpl in H. injection H as <-.
    split; [apply length_insert|].
    unfold py_get. rewrite (py_index_length toks) by apply length_insert.
    rewrite Hk. simpl.
    rewrite list_lookup_insert_eq by (now apply py_index_lt in Hk). simpl.
    now rewrite list_insert_insert_eq.
  - injection H as <-. split; [reflexivity|]. rewrite Hg. simpl. now rewrite Hws.
Qed.

Lemma fix_unhugged_brace_idempotent_witness :
  length (<[12%nat := Token_ "UNIMPORTANT_WS" (py "\n")]>
            (Ref.src_to_tokens (py "if a:\n    x[\n        1\n    ]\n")))
  = length (Ref.src_to_tokens (py "if a:\n    x[\n        1\n    ]\n"))
  /\ _fix_unhugged_brace 0
       (<[12%nat := Token_ "UNIMPORTANT_WS" (py "\n")]>
          (Ref.src_to_tokens (py "if a:\n    x[\n        1\n    ]\n")))
       (find_simple (Ref.collab false) 7 (Ref.src_to_tokens (py "if a:\n    x[\n        1\n    ]\n")))
     = Ret (<[12%nat := Token_ "UNIMPORTANT_WS" (py "\n")]>
              (Ref.src_to_tokens (py "if a:\n    x[\n        1\n    ]\n"))).
Proof.
  apply (fix_unhugged_brace_idempotent 7 0
           (Ref.src_to_tokens (py "if a:\n    x[\n        1\n    ]\n"))).
  vm_compute. reflexivity.
Defined.

(** ** Which comma remove mode deletes *)

Lemma skip_ws_back_to_spec toks fuel : forall i j j',
  (0 <= i)%Z ->
  skip_ws_back_to fuel toks i j = Ret j' ->
  (j' <= j)%Z
  /\ forall k, (j' < k <= j)%Z ->
       exists tk, toks !! Z.to_nat k = Some tk /\ is_ws_name tk = true.
Proof.
  induction fuel as [|fuel IH]; intros i j j' Hi H; simpl in H;
    destruct (Z.ltb_spec i j) as [Hij|Hij];
    try (injection H as <-; split; [lia | intros k Hk; lia]);
    apply bind_Ret in H as (t & Ht & H);
    destruct (is_ws_name t) eqn:Hws;
    try (injection H as <-; split; [lia | intros k Hk; lia]);
    [discriminate|].
  apply (IH _ _ _ Hi) in H as [Hle Hall].
  split; [lia|]. intros k Hk.
  destruct (decide (k = j)) as [->|Hne]; [|apply Hall; lia].
  apply py_get_Ret in Ht as (n & Hn & Hl).
  apply py_index_nonneg in Hn as [-> _]; [|lia]. eauto.
Qed.

(** What the removal of [_remove_trailing_commas] does to a region: nothing,
    or it deletes one comma token, which lies inside the region and is
    separated from the closing bracket by whitespace tokens only (a comment
    after the comma keeps it).  After a deletion the index [last_brace - 1]
    of the descriptor names the closing bracket itself, so that the call of
    [_fix_unhugged_brace] that follows changes nothing. *)
Theorem trailing_comma_removed (toks : list Token) (i : Z) (fd : Fix) (toks' : list Token) :
  (0 <= i)%Z ->
  remove_comma_at toks i fd = Ret (Some toks') ->
  toks' = toks
  \/ exists (j : Z) (t : Token),
       (i < j < snd (braces fd))%Z
       /\ toks !! Z.to_nat j = Some t /\ src t = py ","
       /\ (forall k, (j < k < snd (braces fd))%Z ->
             exists tk, toks !! Z.to_nat k = Some tk /\ is_ws_name tk = true)
       /\ toks' = delete (Z.to_nat j) toks
       /\ (forall tb, toks !! Z.to_nat (snd (braces fd)) = Some tb -> is_ws_name tb = false ->
             _fix_unhugged_brace i toks' (Some fd) = Ret toks').
Proof.
  unfold remove_comma_at. intros Hi H.
  apply bind_Ret in H as (single & _ & H).
  destruct single; [discriminate|].
  apply bind_Ret in H as (j & Hj & H).
  destruct (Z.ltb_spec i j) as [Hij|Hij]; [|injection H as <-; now left].
  apply bind_Ret in H as (t & Ht & H).
  destruct (str_eqb (src t) (py ",")) eqn:Hc; [|injection H as <-; now left].
  injection H as <-. right. exists j, t.
  apply skip_ws_back_to_spec in Hj as [Hle Hall]; [|exact Hi].
  apply py_get_Ret in Ht as (n & Hn & Hl).
  apply py_index_nonneg in Hn as [-> Hlen]; [|lia].
  rewrite py_del_slice_at, <- delete_take_drop by lia.
  split; [lia|]. split; [exact Hl|]. split; [now apply str_eqb_eq|].
  split; [intros k Hk; apply Hall; lia|]. split; [reflexivity|].
  intros tb Hb Hws. unfold _fix_unhugged_brace.
  destruct (negb (multi_arg fd)); [reflexivity|].
  assert (Hlb : (snd (braces fd) < Z.of_nat (length toks))%Z).
  { apply lookup_lt_Some in Hb. lia. }
  destruct (py_get_valid (delete (Z.to_nat j) toks) (snd (braces fd) - 1)) as (x & -> & Hx).
  { rewrite length_delete by eauto. lia. }
  simpl. rewrite list_lookup_delete_ge in Hx by lia.
  replace (S (Z.to_nat (snd (braces fd) - 1))) with (Z.to_nat (snd (braces fd))) in Hx by lia.
  rewrite Hb in Hx. injection Hx as <-. now rewrite Hws.
Qed.

Lemma trailing_comma_removed_witness :
  delete 5%nat (Ref.src_to_tokens (py "x(\n    1,\n)\n")) = Ref.src_to_tokens (py "x(\n    1,\n)\n")
  \/ exists (j : Z) (t : Token),
       (1 < j < snd (braces (mkFix (1, 7)%Z true)))%Z
       /\ Ref.src_to_tokens (py "x(\n    1,\n)\n") !! Z.to_nat j = Some t /\ src t = py ","
       /\ (forall k, (j < k < snd (braces (mkFix (1, 7)%Z true)))%Z ->
             exists tk, Ref.src_to_tokens (py "x(\n    1,\n)\n") !! Z.to_nat k = Some tk
                        /\ is_ws_name tk = true)
       /\ delete 5%nat (Ref.src_to_tokens (py "x(\n    1,\n)\n"))
          = delete (Z.to_nat j) (Ref.src_to_tokens (py "x(\n    1,\n)\n"))
       /\ (forall tb,
             Ref.src_to_tokens (py "x(\n    1,\n)\n") !! Z.to_nat (snd (braces (mkFix (1, 7)%Z true)))
             = Some tb ->
             is_ws_name tb = false ->
             _fix_unhugged_brace 1 (delete 5%nat (Ref.src_to_tokens (py "x(\n    1,\n)\n")))
               (Some (mkFix (1, 7)%Z true))
             = Ret (delete 5%nat (Ref.src_to_tokens (py "x(\n    1,\n)\n")))).
Proof.
  apply (trailing_comma_removed (Ref.src_to_tokens (py "x(\n    1,\n)\n")) 1 (mkFix (1, 7)%Z true)).
  - lia.
  - vm_compute. reflexivity.
Defined.

(** A comment between the comma and the closing bracket: remove mode keeps
    the comma. *)
Lemma comment_keeps_trailing_comma :
  _fix_src (Ref.collab false) 64 (py "x(\n    1,  # c\n)\n") true
  = Ret (py "x(\n    1,  # c\n)\n").
Proof. vm_compute. reflexivity. Qed.

(** ** Regions without a name, a number or a string *)

Lemma count_args_no_values (toks : list Token) (last_brace : Z) : forall fuel j arg_count,
  (0 <= j)%Z -> (last_brace <= Z.of_nat (length toks))%Z ->
  (forall k t, (j <= k < last_brace)%Z -> toks !! Z.to_nat k = Some t ->
     is_value_name t = false) ->
  (last_brace - j <= Z.of_nat fuel)%Z ->
  count_args fuel toks j last_brace arg_count = Ret arg_count.
Proof.
  induction fuel as [|fuel IH]; intros j arg_count Hj Hlb Hall Hfuel; simpl;
    destruct (Z.ltb_spec j last_brace) as [Hlt|Hge]; try reflexivity; [lia|].
  destruct (py_get_valid toks j ltac:(lia)) as (t & -> & Hl). simpl.
  rewrite (Hall j t) by (assumption || lia).
  apply IH; [lia | lia | | lia]. intros k tk Hk. apply Hall. lia.
Qed.

(** The argument count of [_is_single_element_tuple] counts [NAME], [NUMBER]
    and [STRING] tokens only: for a region that holds none of them the
    answer is [False], whatever the region is and whatever stands before
    it, so the comma of a one-element tuple such as [((),)] or [(...,)] is
    not protected. *)
Theorem no_value_token_not_single (toks : list Token) (i last_brace : Z) :
  (0 <= i)%Z -> (last_brace <= Z.of_nat (length toks))%Z ->
  (forall k t, (i < k < last_brace)%Z -> toks !! Z.to_nat k = Some t ->
     is_value_name t = false) ->
  _is_single_element_tuple toks i last_brace = Ret false.
Proof.
  intros Hi Hlb Hall. unfold _is_single_element_tuple.
  rewrite count_args_no_values; [reflexivity | lia | exact Hlb | | lia].
  intros k t Hk. apply Hall. lia.
Qed.

Lemma no_value_token_not_single_witness :
  _is_single_element_tuple (Ref.src_to_tokens (py "x = ((),)\n")) 4 8 = Ret false.
Proof.
  apply (no_value_token_not_single (Ref.src_to_tokens (py "x = ((),)\n")) 4 8).
  - lia.
  - vm_compute. discriminate.
  - intros k t Hk Hl.
    assert (Hcases : k = 5%Z \/ k = 6%Z \/ k = 7%Z) by lia.
    destruct Hcases as [->|[->| ->]]; vm_compute in Hl; injection Hl as <-; reflexivity.
Defined.

(** Remove mode on that text: the tuple that holds the empty tuple becomes
    the empty tuple. *)
Lemma tuple_of_empty_tuple_loses_comma :
  _fix_src (Ref.collab false) 64 (py "x = ((),)\n") true = Ret (py "x = (())\n").
Proof. vm_compute. reflexivity. Qed.

(** ** When [_is_single_element_tuple] answers [True] *)

Lemma skip_ws_back_spec toks fuel : forall k k',
  skip_ws_back fuel toks k = Ret k' ->
  (k' <= k)%Z
  /\ (forall m, (k' < m <= k)%Z ->
        exists tm, toks !! Z.to_nat m = Some tm /\ is_ws_name tm = true)
  /\ ((0 <= k')%Z -> exists t, toks !! Z.to_nat k' = Some t /\ is_ws_name t = false).
Proof.
  induction fuel as [|fuel IH]; intros k k' H; simpl in H;
    destruct (Z.leb_spec 0 k) as [Hk|Hk];
    try (injection H as <-; split; [lia|]; split; intros; lia);
    apply bind_Ret in H as (t & Ht & H);
    apply py_get_Ret in Ht as (n & Hn & Hl);
    (apply py_index_nonneg in Hn as [-> _]; [|exact Hk]);
    destruct (is_ws_name t) eqn:Hws;
    try (injection H as <-; split; [lia|]; split; [intros; lia | eauto]);
    [discriminate|].
  apply IH in H as (Hle & Hall & Hlast).
  split; [lia|]. split; [|exact Hlast]. intros m Hm.
  destruct (decide (m = k)) as [->|Hne]; [eauto | apply Hall; lia].
Qed.

(** The answer [True] has these causes, all of them: the region is opened by
    a parenthesis (never by a square bracket or a brace), its argument count
    is one, and going back from the parenthesis over whitespace tokens there
    is a token whose text is one of the sixteen of [tuple_operator_contexts].
    A parenthesis that opens the file, or follows any other token, gets
    [False]. *)
Theorem single_element_tuple_true_inv (toks : list Token) (i last_brace : Z) :
  (0 <= i)%Z ->
  _is_single_element_tuple toks i last_brace = Ret true ->
  count_args (Z.to_nat (last_brace - (i + 1))) toks (i + 1) last_brace 0 = Ret 1%Z
  /\ exists (ti : Token) (k : Z) (tk : Token),
       toks !! Z.to_nat i = Some ti /\ src ti = py "("
       /\ (0 <= k < i)%Z
       /\ toks !! Z.to_nat k = Some tk /\ is_ws_name tk = false
       /\ src tk ∈ tuple_operator_contexts
       /\ forall m, (k < m < i)%Z ->
            exists tm, toks !! Z.to_nat m = Some tm /\ is_ws_name tm = true.
Proof.
  unfold _is_single_element_tuple. intros Hi H.
  apply bind_Ret in H as (n & Hn & H).
  destruct (Z.eqb_spec n 1) as [->|Hne]; simpl in H; [|discriminate].
  split; [exact Hn|].
  apply bind_Ret in H as (ti & Hti & H).
  destruct (str_eqb (src ti) (py "(")) eqn:Hp; simpl in H; [|discriminate].
  apply bind_Ret in H as (k & Hk & H).
  destruct (Z.ltb_spec k 0) as [Hneg|Hk0]; [discriminate|].
  apply bind_Ret in H as (tk & Htk & H).
  apply bind_Ret in H as (imp & _ & H).
  apply bind_Ret in H as (fn & _ & H).
  injection H as H. apply andb_true_iff in H as [H _]. apply andb_true_iff in H as [H _].
  apply bool_decide_eq_true in H.
  apply py_get_Ret in Hti as (ni & Hni & Hli).
  apply py_index_nonneg in Hni as [-> _]; [|exact Hi].
  apply py_get_Ret in Htk as (nk & Hnk & Hlk).
  apply py_index_nonneg in Hnk as [-> _]; [|exact Hk0].
  apply skip_ws_back_spec in Hk as (Hle & Hall & Hlast).
  destruct (Hlast Hk0) as (t & Ht & Hws). rewrite Hlk in Ht. injection Ht as <-.
  exists ti, k, tk. split; [exact Hli|]. split; [now apply str_eqb_eq|].
  split; [lia|]. split; [exact Hlk|]. split; [exact Hws|]. split; [exact H|].
  intros m Hm. apply Hall. lia.
Qed.

Lemma single_element_tuple_true_inv_witness :
  count_args (Z.to_nat (7 - (4 + 1))) (Ref.src_to_tokens (py "x = (1,)\n")) (4 + 1) 7 0 = Ret 1%Z
  /\ exists (ti : Token) (k : Z) (tk : Token),
       Ref.src_to_tokens (py "x = (1,)\n") !! Z.to_nat 4 = Some ti /\ src ti = py "("
       /\ (0 <= k < 4)%Z
       /\ Ref.src_to_tokens (py "x = (1,)\n") !! Z.to_nat k = Some tk /\ is_ws_name tk = false
       /\ src tk ∈ tuple_operator_contexts
       /\ forall m, (k < m < 4)%Z ->
            exists tm, Ref.src_to_tokens (py "x = (1,)\n") !! Z.to_nat m = Some tm
                       /\ is_ws_name tm = true.
Proof.
  apply (single_element_tuple_true_inv (Ref.src_to_tokens (py "x = (1,)\n")) 4 7).
  - lia.
  - vm_compute. reflexivity.
Defined.

(** ** The loop over a list that changes *)

(** [_changing_list] reads the length of the list again at every step.  When
    no step of the consumer makes the list longer, the loop yields at most
    once for each token from [i] on: that many iterations give a result or
    an exception. *)
Theorem changing_list_ends (body : Z -> Token -> list Token -> outcome (list Token)) :
  (forall i token toks toks', body i token toks = Ret toks' -> length toks' <= length toks) ->
  (forall i token toks, body i token toks <> OutOfFuel) ->
  forall (fuel : nat) (i : Z) (toks : list Token),
    (Z.of_nat (length toks) - i <= Z.of_nat fuel)%Z ->
    _changing_list fuel body i toks <> OutOfFuel.
Proof.
  intros Hlen Hfuel. induction fuel as [|fuel IH]; intros i toks Hf; simpl;
    destruct (Z.ltb_spec i (Z.of_nat (length toks))) as [Hi|Hi]; try discriminate; [lia|].
  destruct (py_get toks i) as [token| |] eqn:Hg; simpl;
    [|discriminate|now apply py_get_fuel in Hg].
  destruct (body i token toks) as [toks1| |] eqn:Hb; simpl;
    [|discriminate|now apply Hfuel in Hb].
  apply IH. apply Hlen in Hb. lia.
Qed.

Lemma changing_list_ends_witness :
  match _changing_list 12 (remove_body (Ref.collab false) (py "x(\n    1,\n)\n") ∅) 0
          (Ref.src_to_tokens (py "x(\n    1,\n)\n")) with
  | OutOfFuel => False
  | _ => True
  end.
Proof.
  assert (H : _changing_list 12 (remove_body (Ref.collab false) (py "x(\n    1,\n)\n") ∅) 0
                (Ref.src_to_tokens (py "x(\n    1,\n)\n"))
              <> OutOfFuel).
  { apply (changing_list_ends (remove_body (Ref.collab false) (py "x(\n    1,\n)\n") ∅)).
    - intros i token toks toks' H.
      destruct (Z.le_gt_cases 0 i) as [Hi|Hi].
      + apply edits_length.
        eapply remove_body_edits; [apply callbacks_respect_empty | exact Hi | exact H].
      + unfold remove_body in H.
        destruct (bool_decide (src token = [])); [injection H as <-; lia|].
        destruct (is_start_brace (Ref.collab false) token); [|injection H as <-; reflexivity].
        change (find_simple (Ref.collab false)) with (Ref.find_simple false) in H.
        unfold Ref.find_simple in H. destruct (Z.ltb_spec i 0); [|lia].
        simpl in H. injection H as <-. reflexivity.
    - intros i token toks. apply remove_body_fuel.
    - vm_compute. discriminate. }
  destruct (_changing_list 12 _ 0 _); [exact I | exact I | exact (H eq_refl)].
Defined.

(** ** Remove mode, region by region *)

Lemma remove_comma_at_inv (contents_text : str) toks i fd toks' :
  (0 <= i)%Z ->
  _should_skip_adding_comma contents_text (Some fd) = false ->
  remove_comma_at toks i fd = Ret (Some toks') ->
  comma_deleted contents_text i fd toks toks'.
Proof.
  unfold remove_comma_at. intros Hi Hs H.
  apply bind_Ret in H as (single & Hsingle & H).
  destruct single; [discriminate|].
  apply bind_Ret in H as (j & Hj & H).
  destruct (Z.ltb_spec i j) as [Hij|Hij]; [|injection H as <-; now left].
  apply bind_Ret in H as (t & Ht & H).
  destruct (str_eqb (src t) (py ",")) eqn:Hc; [|injection H as <-; now left].
  injection H as <-. right. split; [exact Hs|]. split; [exact Hsingle|]. exists j, t.
  apply skip_ws_back_to_spec in Hj as [Hle Hall]; [|exact Hi].
  apply py_get_Ret in Ht as (n & Hn & Hl).
  apply py_index_nonneg in Hn as [-> Hlen]; [|lia].
  rewrite py_del_slice_at, <- delete_take_drop by lia.
  split; [lia|]. split; [exact Hl|]. split; [now apply str_eqb_eq|].
  split; [intros k Hk; apply Hall; lia | reflexivity].
Qed.

Lemma unhugged_length fd toks toks' : unhugged fd toks toks' -> length toks' = length toks.
Proof. intros [->|(k & t & _ & _ & _ & ->)]; [reflexivity | apply length_insert]. Qed.

Lemma comma_deleted_length s i fd toks toks' :
  comma_deleted s i fd toks toks' -> length toks' <= length toks.
Proof.
  intros [->|(_ & _ & j & t & _ & Hl & _ & _ & ->)]; [lia|].
  rewrite length_delete by eauto. lia.
Qed.

Section RemoveSteps.
Context (E : Collab) (contents_text : str) (callbacks : gmap Offset (list callback)).

Lemma remove_body_steps i token toks toks' :
  (0 <= i)%Z ->
  remove_body E contents_text callbacks i token toks = Ret toks' ->
  rtc (remove_mode_step E contents_text callbacks) toks toks'.
Proof.
  unfold remove_body. intros Hi H.
  destruct (bool_decide (src token = [])); [injection H as <-; apply rtc_refl|].
  transitivity (run_callbacks callbacks token i toks).
  { eapply rtc_subrel; [|apply run_callbacks_steps]. intros a b Hab. left. exact Hab. }
  destruct (is_start_brace E token); [|injection H as <-; apply rtc_refl].
  destruct (find_simple E i _) as [fd|] eqn:Hf; [|injection H as <-; apply rtc_refl].
  destruct (multi_arg fd) eqn:Hm; cbn [andb] in H.
  - destruct (_should_skip_adding_comma contents_text (Some fd)) eqn:Hs; cbn [negb] in H.
    + apply rtc_once. right.
      apply (region_step_at E contents_text _ i fd (run_callbacks callbacks token i toks));
        [exact Hi | exact Hf | exact Hm | now left |].
      eapply fix_unhugged_brace_inv; eassumption.
    + apply bind_Ret in H as ([toks1|] & Hr & H); [|injection H as <-; apply rtc_refl].
      apply rtc_once. right.
      apply (region_step_at E contents_text _ i fd toks1); [exact Hi | exact Hf | exact Hm | |].
      * eapply remove_comma_at_inv; eassumption.
      * eapply fix_unhugged_brace_inv; eassumption.
  - rewrite fix_unhugged_brace_lacking in H by (simpl; now rewrite Hm).
    injection H as <-. apply rtc_refl.
Qed.

Lemma remove_steps_no_longer toks toks' :
  callbacks_respect no_longer callbacks ->
  rtc (remove_mode_step E contents_text callbacks) toks toks' -> length toks' <= length toks.
Proof.
  intros Hcb. induction 1 as [|a b c Hab _ IH]; [lia|].
  etrans; [exact IH|]. destruct Hab as [(off & cbs & cb & j & Hl & Hin & ->)|Hab].
  - specialize (Hcb _ _ Hl). rewrite Forall_forall in Hcb. apply (Hcb cb Hin).
  - destruct Hab as [toks0 i fd toks1 toks2 _ _ _ Hd Hu].
    apply unhugged_length in Hu. apply comma_deleted_length in Hd. lia.
Qed.

Lemma remove_loop_steps fuel : forall i toks,
  (0 <= i)%Z ->
  match _changing_list fuel (remove_body E contents_text callbacks) i toks with
  | Ret toks' => rtc (remove_mode_step E contents_text callbacks) toks toks'
  | Raise _ => True
  | OutOfFuel =>
      callbacks_respect no_longer callbacks -> (Z.of_nat fuel <= Z.of_nat (length toks) - i)%Z
  end.
Proof.
  induction fuel as [|fuel IH]; intros i toks Hi0; simpl.
  - destruct (Z.ltb_spec i (Z.of_nat (length toks))) as [Hi|Hi]; simpl; [lia | apply rtc_refl].
  - destruct (Z.ltb_spec i (Z.of_nat (length toks))) as [Hi|Hi]; simpl; [|apply rtc_refl].
    destruct (py_get toks i) as [token| |] eqn:Hg; simpl;
      [|done|now apply py_get_fuel in Hg].
    destruct (remove_body E contents_text callbacks i token toks) as [toks1| |] eqn:Hb;
      simpl; [|done|now apply remove_body_fuel in Hb].
    apply remove_body_steps in Hb; [|exact Hi0].
    specialize (IH (i + 1)%Z toks1 ltac:(lia)).
    destruct (_changing_list fuel _ (i + 1)%Z toks1); [|done|].
    + etrans; eassumption.
    + intros Hcb. specialize (IH Hcb).
      pose proof (remove_steps_no_longer _ _ Hcb Hb). lia.
Qed.
End RemoveSteps.

(** C4, as amended: the loop of remove mode deletes a trailing separator
    only from a region for which [find_simple] returns a descriptor with
    [multi_arg] set; of the multiline test of the claim nothing is found in
    [_remove_trailing_commas].  Region by region: at an opening bracket for
    which there is no such descriptor, the iteration returns the tokens as
    the callbacks left them, whatever the other regions of the text are.
    Over the run: the tokens of the result come from those of the input by
    steps, each of which is a registered callback or the work of one
    iteration in a described region: the comma that ends the region (but for
    whitespace tokens) is deleted, if the skip test and the single-element
    rule allow, and then the whitespace token before the closing bracket may
    become [Token('UNIMPORTANT_WS', '\n')].  When no callback makes the
    list longer, the loop ends within one iteration per token, and with
    descriptors in range there is a result. *)
Theorem remove_mode_deletes_in_described_regions (E : Collab) (fuel : nat) (s : str) :
  (forall callbacks i token toks,
     lacks_multi_arg (find_simple E i (run_callbacks callbacks token i toks)) = true ->
     remove_body E s callbacks i token toks
     = Ret (if bool_decide (src token = []) then toks
            else run_callbacks callbacks token i toks))
  /\ match _fix_src E fuel s true with
     | Ret out =>
         (ast_parse E s = None /\ out = s)
         \/ exists a toks', ast_parse E s = Some a /\ out = tokens_to_src toks'
              /\ rtc (remove_mode_step E s (visit E a)) (src_to_tokens E s) toks'
     | Raise _ => True
     | OutOfFuel =>
         (forall a, ast_parse E s = Some a -> callbacks_respect no_longer (visit E a)) ->
         fuel <= length (src_to_tokens E s)
     end
  /\ ((forall a, ast_parse E s = Some a -> callbacks_respect no_longer (visit E a)) ->
      descriptors_in_range E -> length (src_to_tokens E s) < fuel ->
      exists out, _fix_src E fuel s true = Ret out).
Proof.
  split; [intros; now apply remove_body_without_descriptor|].
  assert (Hmain : match _fix_src E fuel s true with
                  | Ret out =>
                      (ast_parse E s = None /\ out = s)
                      \/ exists a toks', ast_parse E s = Some a /\ out = tokens_to_src toks'
                           /\ rtc (remove_mode_step E s (visit E a)) (src_to_tokens E s) toks'
                  | Raise _ => True
                  | OutOfFuel =>
                      (forall a, ast_parse E s = Some a ->
                         callbacks_respect no_longer (visit E a)) ->
                      fuel <= length (src_to_tokens E s)
                  end).
  { unfold _fix_src, _remove_trailing_commas.
    destruct (ast_parse E s) as [a|] eqn:Hp; [|left; auto].
    pose proof (remove_loop_steps E s (visit E a) fuel 0%Z (src_to_tokens E s) ltac:(lia)) as H.
    destruct (_changing_list fuel _ 0%Z (src_to_tokens E s)) as [toks'| |]; simpl; [|done|].
    - right. exists a, toks'. auto.
    - intros Hcb. specialize (H (Hcb a eq_refl)). lia. }
  split; [exact Hmain|]. intros Hcb Hr Hfuel.
  pose proof (fix_src_no_raise E fuel s true Hr) as Hnr.
  destruct (_fix_src E fuel s true) as [out|e|];
    [eauto | now destruct (Hnr e) | specialize (Hmain Hcb); lia].
Qed.

Lemma remove_mode_deletes_in_described_regions_witness :
  match _fix_src (Ref.collab true) 64 described_and_undescribed true with
  | Ret out =>
      (ast_parse (Ref.collab true) described_and_undescribed = None
       /\ out = described_and_undescribed)
      \/ exists a toks',
           ast_parse (Ref.collab true) described_and_undescribed = Some a
           /\ out = tokens_to_src toks'
           /\ rtc (remove_mode_step (Ref.collab true) described_and_undescribed
                     (visit (Ref.collab true) a))
                (src_to_tokens (Ref.collab true) described_and_undescribed) toks'
  | Raise _ => True
  | OutOfFuel =>
      (forall a, ast_parse (Ref.collab true) described_and_undescribed = Some a ->
         callbacks_respect no_longer (visit (Ref.collab true) a)) ->
      64 <= length (src_to_tokens (Ref.collab true) described_and_undescribed)
  end
  /\ exists out, _fix_src (Ref.collab true) 64 described_and_undescribed true = Ret out.
Proof.
  destruct (remove_mode_deletes_in_described_regions (Ref.collab true) 64
              described_and_undescribed) as (_ & A & B).
  split; [exact A|].
  apply B; [intros a _; apply callbacks_respect_empty | apply ref_descriptors_in_range
           | vm_compute; lia].
Defined.

(** On that text, with the analyzer that describes multiline regions only:
    the call loses its comma, the tuple on one line keeps it. *)
Lemma described_region_loses_comma :
  _fix_src (Ref.collab true) 64 described_and_undescribed true
  = Ret (py "f(\n    1\n)\nx = (2, 3,)\n").
Proof. vm_compute. reflexivity. Qed.

(** C4 (counterexample): in [multi = (1, 2,)] the region opened by token 14
    ends at token 20 and holds no line break.  Lines 157-171, given a
    descriptor of that region, delete its trailing comma (token 19): they
    ask for [multi_arg] and nothing else.  With an analyzer that turns
    single-line regions down and no callback, remove mode returns the text
    as it is, which is not what the repository's test
    [test_main_preserve_single_tuple_comma] expects; with an analyzer that
    describes the region it returns what the test expects. *)
Lemma single_line_region_loses_comma :
  Ref.src_to_tokens single_and_multi !! 14%nat
    = Some (Ref.tok "OP" (py "(") (Ref.mkLex 3 8 0 false true []))
  /\ Ref.match_close 0 (drop 15 (Ref.src_to_tokens single_and_multi)) = Some 5%nat
  /\ existsb Ref.is_line_break (take 5 (drop 15 (Ref.src_to_tokens single_and_multi))) = false
  /\ remove_comma_at (Ref.src_to_tokens single_and_multi) 14 (mkFix (14, 20)%Z true)
     = Ret (Some (delete 19%nat (Ref.src_to_tokens single_and_multi)))
  /\ _fix_src (Ref.collab true) 64 single_and_multi true = Ret single_and_multi
  /\ _fix_src (Ref.collab false) 64 single_and_multi true
     = Ret (py "single = (1,)\n\nmulti = (1, 2)\n").
Proof. do 5 (split; [vm_compute; reflexivity|]). vm_compute. reflexivity. Qed.
